(** * Review-policy classifier: a shallow embedding of [main.py] and [test.py]

    Python strings are modelled as ASCII [string]s.  The Python string
    primitives the code uses ([str.strip], [str.lower], [str.splitlines],
    [str.split], [in]) are written out below with their ASCII behaviour. *)

From Stdlib Require Import String Ascii List Bool Arith Lia ZArith QArith.
Import ListNotations.
Open Scope nat_scope.
Open Scope string_scope.

(** ** Python string primitives *)
Module Py.

(** [str.isspace] on one ASCII character: tab, LF, VT, FF, CR, the four
    separators 0x1c..0x1f and the space. *)
Definition is_space (c : ascii) : bool :=
  let n := nat_of_ascii c in
  ((Nat.leb 9 n) && (Nat.leb n 13)) || ((Nat.leb 28 n) && (Nat.leb n 32)).

(** Line boundaries of [str.splitlines] within ASCII: LF, VT, FF, CR,
    0x1c, 0x1d, 0x1e ([CR LF] counts as one boundary). *)
Definition is_linebreak (c : ascii) : bool :=
  let n := nat_of_ascii c in
  ((Nat.leb 10 n) && (Nat.leb n 13)) || ((Nat.leb 28 n) && (Nat.leb n 30)).

Fixpoint lstrip (s : string) : string :=
  match s with
  | EmptyString => EmptyString
  | String c r => if is_space c then lstrip r else s
  end.

Fixpoint rstrip (s : string) : string :=
  match s with
  | EmptyString => EmptyString
  | String c r =>
      let r' := rstrip r in
      if (r' =? EmptyString) && is_space c then EmptyString else String c r'
  end.

(** [s.strip()] *)
Definition strip (s : string) : string := rstrip (lstrip s).

Definition lower_char (c : ascii) : ascii :=
  let n := nat_of_ascii c in
  if (Nat.leb 65 n) && (Nat.leb n 90) then ascii_of_nat (n + 32) else c.

(** [s.lower()] *)
Fixpoint lower (s : string) : string :=
  match s with
  | EmptyString => EmptyString
  | String c r => String (lower_char c) (lower r)
  end.

(** [sub in s] *)
Fixpoint contains (sub s : string) : bool :=
  prefix sub s ||
  match s with
  | EmptyString => false
  | String _ r => contains sub r
  end.

(** [s.split(sep, 1)] for a one-character separator: [None] when [sep] does
    not occur (the result list then has one element), otherwise the text
    before and after the first occurrence. *)
Fixpoint split_once (sep : ascii) (s : string) : option (string * string) :=
  match s with
  | EmptyString => None
  | String c r =>
      if Ascii.eqb c sep then Some (EmptyString, r)
      else match split_once sep r with
           | Some (b, a) => Some (String c b, a)
           | None => None
           end
  end.

Definition CR : ascii := ascii_of_nat 13.
Definition LF : ascii := ascii_of_nat 10.

(** [s.splitlines()]: the text between line boundaries; a last segment
    is kept only when it is not empty. *)
Fixpoint splitlines_from (s cur : string) : list string :=
  match s with
  | EmptyString => if cur =? EmptyString then [] else [cur]
  | String c r =>
      if Ascii.eqb c CR then
        match r with
        | String c2 r2 =>
            if Ascii.eqb c2 LF then cur :: splitlines_from r2 EmptyString
            else cur :: splitlines_from r EmptyString
        | EmptyString => [cur]
        end
      else if is_linebreak c then cur :: splitlines_from r EmptyString
      else splitlines_from r (cur ++ String c EmptyString)
  end.

Definition splitlines (s : string) : list string := splitlines_from s EmptyString.

(** [str.rfind] for one character. *)
Fixpoint rfind (c : ascii) (s : string) : option nat :=
  match s with
  | EmptyString => None
  | String a r =>
      match rfind c r with
      | Some i => Some (S i)
      | None => if Ascii.eqb a c then Some 0 else None
      end
  end.

(** A one-character string. *)
Definition chr (n : nat) : string := String (ascii_of_nat n) EmptyString.

End Py.

(** ** [_parse_model_output] (test.py, lines 70-88) *)
Module Parse.
Import Py.

Definition tok_decision : string := "decision:".
Definition tok_violation : string := "primary violation".
Definition tok_explanation : string := "explanation:".

(** [tok in ln.lower()] *)
Definition has_tok (tok ln : string) : bool := contains tok (lower ln).

(** [ln.split(":", 1)[1].strip()]; [None] is the [IndexError] raised when
    the line has no colon. *)
Definition after_colon (ln : string) : option string :=
  match split_once ":"%char ln with
  | Some (_, rest) => Some (strip rest)
  | None => None
  end.

(** [[l.strip() for l in output_text.splitlines() if l.strip()]] *)
Fixpoint nonblank_stripped (ls : list string) : list string :=
  match ls with
  | [] => []
  | l :: rest =>
      if strip l =? EmptyString then nonblank_stripped rest
      else strip l :: nonblank_stripped rest
  end.

Definition py_lines (output_text : string) : list string :=
  nonblank_stripped (splitlines output_text).

(** The [for ln in lines] loop with its [if]/[elif] chain; [None] is an
    exception escaping the loop. *)
Fixpoint scan (ls : list string) (decision violation explanation : string)
  : option (string * string * string) :=
  match ls with
  | [] => Some (decision, violation, explanation)
  | ln :: rest =>
      if has_tok tok_decision ln && (decision =? EmptyString) then
        match after_colon ln with
        | Some d => scan rest d violation explanation
        | None => None
        end
      else if has_tok tok_violation ln && (violation =? EmptyString) then
        match after_colon ln with
        | Some v => scan rest decision v explanation
        | None => None
        end
      else if has_tok tok_explanation ln && (explanation =? EmptyString) then
        match after_colon ln with
        | Some e => scan rest decision violation e
        | None => None
        end
      else scan rest decision violation explanation
  end.

Definition _parse_model_output (output_text : string)
  : option (string * string * string) :=
  scan (py_lines output_text) EmptyString EmptyString EmptyString.

End Parse.

(** ** Python dicts with insertion order, as association lists *)
Module Dict.

(** [d[k] = v]: updates the entry in place, or appends a new key. *)
Fixpoint set {K V : Type} (eqk : K -> K -> bool) (k : K) (v : V)
  (d : list (K * V)) : list (K * V) :=
  match d with
  | [] => [(k, v)]
  | (k', v') :: r => if eqk k k' then (k', v) :: r else (k', v') :: set eqk k v r
  end.

(** [d.get(k)] *)
Fixpoint get {K V : Type} (eqk : K -> K -> bool) (k : K) (d : list (K * V))
  : option V :=
  match d with
  | [] => None
  | (k', v') :: r => if eqk k k' then Some v' else get eqk k r
  end.

End Dict.

(** ** [process_csv] and its helpers (test.py, lines 48-169) *)
Module Csv.
Import Py Parse.

Fixpoint remove_chars (bad : ascii -> bool) (s : string) : string :=
  match s with
  | EmptyString => EmptyString
  | String c r => if bad c then remove_chars bad r else String c (remove_chars bad r)
  end.

(** [name.strip().lower().replace(" ", "").replace("_", "")] *)
Definition _normalize (name : string) : string :=
  remove_chars (fun c => Ascii.eqb c " "%char || Ascii.eqb c "_"%char)
               (lower (strip name)).

Definition loc_candidates : list string :=
  ["location"; "place"; "venue"; "restaurant"; "store"; "hotel"; "site"; "spot"].
Definition rev_candidates : list string :=
  ["review"; "text"; "comment"; "feedback"; "content"; "body"; "ratingtext"].

(** [{_normalize(h): h for h in headers}] *)
Definition norm_map (headers : list string) : list (string * string) :=
  fold_left (fun m h => Dict.set String.eqb (_normalize h) h m) headers [].

(** [next((norm_map[n] for n in cands if n in norm_map), None)] *)
Fixpoint first_found (m : list (string * string)) (cands : list string)
  : option string :=
  match cands with
  | [] => None
  | n :: r =>
      match Dict.get String.eqb n m with
      | Some h => Some h
      | None => first_found m r
      end
  end.

Definition _guess_columns (headers : list string) : option string * option string :=
  let m := norm_map headers in
  (first_found m loc_candidates, first_found m rev_candidates).

(** Python truthiness of an [Optional[str]]: [not x]. *)
Definition py_not (x : option string) : bool :=
  match x with
  | None => true
  | Some s => s =? EmptyString
  end.

(** [x in xs] for a list of strings *)
Definition py_in (x : string) (xs : list string) : bool :=
  existsb (String.eqb x) xs.

(** Values of a [csv.DictReader] row: a field, the reader's [restval]
    ([None]) for missing fields, or the list of extra fields stored under
    the [restkey] ([None]). *)
Inductive pyval :=
| VStr (s : string)
| VNone
| VList (l : list string).

Definition key_eqb (a b : option string) : bool :=
  match a, b with
  | Some x, Some y => String.eqb x y
  | None, None => true
  | _, _ => false
  end.

Definition row_dict := list (option string * pyval).

(** [csv.DictReader.__next__] on one non-empty CSV record. *)
Definition read_row (fieldnames row : list string) : row_dict :=
  let d := fold_left (fun d kv => Dict.set key_eqb (Some (fst kv)) (VStr (snd kv)) d)
                     (combine fieldnames row) [] in
  let lf := length fieldnames in
  let lr := length row in
  if Nat.ltb lf lr then Dict.set key_eqb None (VList (skipn lf row)) d
  else if Nat.ltb lr lf then
    fold_left (fun d k => Dict.set key_eqb (Some k) VNone d) (skipn lr fieldnames) d
  else d.

(** [(row.get(col) or "")], followed by the [.strip()] applied to it; [None]
    is the [AttributeError] of calling [.strip()] on a non-empty list. *)
Definition get_or_empty (d : row_dict) (col : string) : option string :=
  match Dict.get key_eqb (Some col) d with
  | None | Some VNone => Some EmptyString
  | Some (VStr s) => Some s
  | Some (VList []) => Some EmptyString
  | Some (VList _) => None
  end.

Fixpoint join_repr (l : list string) : string :=
  match l with
  | [] => EmptyString
  | [x] => "'" ++ x ++ "'"
  | x :: r => "'" ++ x ++ "', " ++ join_repr r
  end.

(** How [csv.writer] renders one value: [None] as the empty string, other
    values through [str]. *)
Definition render (v : pyval) : string :=
  match v with
  | VStr s => s
  | VNone => EmptyString
  | VList l => "[" ++ join_repr l ++ "]"
  end.

(** [csv.DictWriter.writerow] with [extrasaction="raise"] and
    [restval=""]: [None] is the [ValueError] for keys outside the field
    names. *)
Definition writerow (fieldnames : list string) (d : row_dict) : option (list string) :=
  if forallb (fun kv => match fst kv with
                        | Some k => py_in k fieldnames
                        | None => false
                        end) d
  then Some (map (fun k => match Dict.get key_eqb (Some k) d with
                           | Some v => render v
                           | None => EmptyString
                           end) fieldnames)
  else None.

(** Observable interactions: a console prompt and a call of the model chain
    with the (stripped) location and review. *)
Inductive event :=
| EPrompt (msg : string)
| EInvoke (location review : string).

(** The language-model chain: the text it answers for a location and a
    review. *)
Definition llm := string -> string -> string.

(** [evaluate]: [chain.invoke] on the stripped inputs, then the parser. *)
Definition evaluate (model : llm) (location review : string)
  : event * option (string * string * string * string) :=
  let text := model (strip location) (strip review) in
  (EInvoke (strip location) (strip review),
   match _parse_model_output text with
   | Some (d, v, e) => Some (d, v, e, text)
   | None => None
   end).

Definition set_result (d : row_dict) (dec vio expl : string) : row_dict :=
  Dict.set key_eqb (Some "Explanation") (VStr expl)
    (Dict.set key_eqb (Some "Primary Violation") (VStr vio)
       (Dict.set key_eqb (Some "Decision") (VStr dec) d)).

(** The [for row in reader] loop: the events, the rows written so far and
    the exception that stopped the loop, if any. *)
Fixpoint write_rows (model : llm) (fieldnames out_headers : list string)
  (loc_col rev_col : string) (rows : list (list string))
  : list event * list (list string) * option string :=
  match rows with
  | [] => ([], [], None)
  | [] :: rest => write_rows model fieldnames out_headers loc_col rev_col rest
  | raw :: rest =>
      let row := read_row fieldnames raw in
      match get_or_empty row loc_col, get_or_empty row rev_col with
      | None, _ | _, None => ([], [], Some "AttributeError")
      | Some loc, Some rev =>
          let location := strip loc in
          let review := strip rev in
          if review =? EmptyString then
            match writerow out_headers (set_result row "" "" "") with
            | None => ([], [], Some "ValueError")
            | Some line =>
                let '(evs, lines, exn) :=
                  write_rows model fieldnames out_headers loc_col rev_col rest in
                (evs, line :: lines, exn)
            end
          else
            let '(ev, res) := evaluate model location review in
            match res with
            | None => ([ev], [], Some "IndexError")
            | Some (decision, violation, explanation, _) =>
                match writerow out_headers (set_result row decision violation explanation) with
                | None => ([ev], [], Some "ValueError")
                | Some line =>
                    let '(evs, lines, exn) :=
                      write_rows model fieldnames out_headers loc_col rev_col rest in
                    (ev :: evs, line :: lines, exn)
                end
            end
      end
  end.

Fixpoint all_dots (s : string) : bool :=
  match s with
  | EmptyString => true
  | String c r => Ascii.eqb c "."%char && all_dots r
  end.

(** [os.path.splitext] (posixpath: separator ["/"], extension separator
    ["."], leading dots of the file name are not an extension). *)
Definition splitext (p : string) : string * string :=
  match rfind "."%char p with
  | None => (p, EmptyString)
  | Some dot =>
      let start := match rfind "/"%char p with None => 0 | Some sep => S sep end in
      let sep_before := match rfind "/"%char p with None => true | Some sep => Nat.ltb sep dot end in
      if sep_before && negb (all_dots (substring start (dot - start) p))
      then (substring 0 dot p, substring dot (String.length p - dot) p)
      else (p, EmptyString)
  end.

Definition evaluated_path (path : string) : string :=
  let '(base, ext) := splitext path in base ++ "_evaluated" ++ ext.

Definition appended_columns : list string := ["Decision"; "Primary Violation"; "Explanation"].

(** The output file: path, header and the data rows written. *)
Record out_file := { of_path : string; of_header : list string; of_rows : list (list string) }.

Inductive outcome :=
| Exit (code : nat)
| Raise (exn : string)
| Return (out_path : string).

Record run := { r_events : list event; r_outcome : outcome; r_file : option out_file }.

(** [process_csv path]: [file] is the content of [path] as CSV records
    ([None] when [os.path.isfile] fails), [answers] the lines the operator
    types at the [input] prompts. *)
Definition process_csv (model : llm) (file : option (list (list string)))
  (answers : list string) (path : string) : run :=
  match file with
  | None => {| r_events := []; r_outcome := Exit 1; r_file := None |}
  | Some records =>
      let '(headers, rows) :=
        match records with [] => ([], []) | h :: r => (h, r) end in
      match headers with
      | [] => {| r_events := []; r_outcome := Exit 1; r_file := None |}
      | _ =>
          let '(g_loc, g_rev) := _guess_columns headers in
          let cols :=
            if py_not g_loc || py_not g_rev then
              match answers with
              | a1 :: a2 :: _ =>
                  let loc_col := strip a1 in
                  let rev_col := strip a2 in
                  if negb (py_in loc_col headers) || negb (py_in rev_col headers)
                  then inr (Exit 1)
                  else inl (loc_col, rev_col)
              | _ => inr (Raise "EOFError")
              end
            else inl (match g_loc with Some l => l | None => EmptyString end,
                      match g_rev with Some r => r | None => EmptyString end) in
          let prompts :=
            if py_not g_loc || py_not g_rev then
              match answers with
              | [] => [EPrompt "Enter the column name for LOCATION: "]
              | _ => [EPrompt "Enter the column name for LOCATION: ";
                      EPrompt "Enter the column name for REVIEW: "]
              end
            else [] in
          match cols with
          | inr o => {| r_events := prompts; r_outcome := o; r_file := None |}
          | inl (loc_col, rev_col) =>
              let out_path := evaluated_path path in
              let out_headers := (headers ++ appended_columns)%list in
              let '(evs, lines, exn) :=
                write_rows model headers out_headers loc_col rev_col rows in
              {| r_events := (prompts ++ evs)%list;
                 r_outcome := match exn with Some x => Raise x | None => Return out_path end;
                 r_file := Some {| of_path := out_path; of_header := out_headers;
                                   of_rows := lines |} |}
          end
      end
  end.

End Csv.


(** ** [read_file] and [clean_dataframe] (main.py, lines 59-85) *)
Module Frame.
Import Py.

(** A pandas number: finite values as rationals, and the two infinities. *)
Inductive xnum :=
| XFin (q : Q)
| XPosInf
| XNegInf.

(** A DataFrame cell: a number, a string, or a missing value (NaN/None). *)
Inductive cell :=
| CNum (x : xnum)
| CStr (s : string)
| CNA.

(** A row with the two columns the code names and the remaining ones. *)
Record row := { rating : cell; text : cell; others : list cell }.

Definition dataframe := list row.

Definition xnum_eqb (a b : xnum) : bool :=
  match a, b with
  | XFin p, XFin q => Qeq_bool p q
  | XPosInf, XPosInf | XNegInf, XNegInf => true
  | _, _ => false
  end.

(** Cell equality as [drop_duplicates] sees it (missing values are equal). *)
Definition cell_eqb (a b : cell) : bool :=
  match a, b with
  | CNum x, CNum y => xnum_eqb x y
  | CStr s, CStr t => String.eqb s t
  | CNA, CNA => true
  | _, _ => false
  end.

Definition row_eqb (a b : row) : bool :=
  cell_eqb (rating a) (rating b) && cell_eqb (text a) (text b) &&
  (Nat.eqb (length (others a)) (length (others b)) &&
   forallb (fun p => cell_eqb (fst p) (snd p)) (combine (others a) (others b))).

(** [df.drop_duplicates()]: keeps the first of equal rows. *)
Fixpoint drop_duplicates_from (seen : list row) (df : dataframe) : dataframe :=
  match df with
  | [] => []
  | r :: rest =>
      if existsb (row_eqb r) seen then drop_duplicates_from seen rest
      else r :: drop_duplicates_from (r :: seen) rest
  end.

Definition drop_duplicates (df : dataframe) : dataframe := drop_duplicates_from [] df.

Definition is_na (c : cell) : bool :=
  match c with CNA => true | _ => false end.

(** [df.dropna()]: drops rows with a missing value in any column. *)
Definition dropna (df : dataframe) : dataframe :=
  filter (fun r => negb (is_na (rating r) || is_na (text r) || existsb is_na (others r))) df.

Definition set_rating (r : row) (c : cell) : row :=
  {| rating := c; text := text r; others := others r |}.

(** [clip(lower=0, upper=5)] on one number. *)
Definition clip05 (x : xnum) : xnum :=
  match x with
  | XFin q => if negb (Qle_bool 0 q) then XFin 0%Q else if negb (Qle_bool q 5) then XFin 5%Q else XFin q
  | XPosInf => XFin 5%Q
  | XNegInf => XFin 0%Q
  end.

Definition clip_cell (c : cell) : cell :=
  match c with
  | CNum x => CNum (clip05 x)
  | _ => c
  end.

(** [astype(int)]: truncation toward zero; [None] is the error pandas
    raises on a non-finite or missing value. *)
Definition to_int_cell (c : cell) : option cell :=
  match c with
  | CNum (XFin q) => Some (CNum (XFin (inject_Z (Z.quot (Qnum q) (Zpos (Qden q))))))
  | _ => None
  end.

Fixpoint astype_int (df : dataframe) : option dataframe :=
  match df with
  | [] => Some []
  | r :: rest =>
      match to_int_cell (rating r), astype_int rest with
      | Some c, Some rest' => Some (set_rating r c :: rest')
      | _, _ => None
      end
  end.

Section Pandas.
(** How [pd.to_numeric] reads a string ([None]: not a number, coerced to
    NaN) and how [astype(str)] prints a number: pandas internals that the
    properties below hold for whatever they are. *)
Variable parse_number : string -> option xnum.
Variable num_str : xnum -> string.

(** [pd.to_numeric(..., errors='coerce')] on one cell. *)
Definition to_numeric_cell (c : cell) : cell :=
  match c with
  | CNum x => CNum x
  | CStr s => match parse_number s with Some x => CNum x | None => CNA end
  | CNA => CNA
  end.

(** [.astype(str)] on one cell. *)
Definition cell_str (c : cell) : string :=
  match c with
  | CNum x => num_str x
  | CStr s => s
  | CNA => "nan"
  end.

Definition clean_dataframe (df : dataframe) : option dataframe :=
  let df := drop_duplicates df in
  let df := dropna df in
  let df := map (fun r => set_rating r (to_numeric_cell (rating r))) df in
  let df := map (fun r => set_rating r (clip_cell (rating r))) df in
  let df := filter (fun r => negb (is_na (rating r))) df in
  match astype_int df with
  | None => None
  | Some df =>
      Some (filter (fun r => negb (strip (cell_str (text r)) =? EmptyString)) df)
  end.

End Pandas.

Inductive reader := ReadCsv | ReadExcel | ReadJson | ReadXml.

(** [file_name.split(".")[-1]] *)
Definition last_field (sep : ascii) (s : string) : string :=
  match rfind sep s with
  | None => s
  | Some i => substring (S i) (String.length s - S i) s
  end.

(** [read_file]: the pandas reader it calls on [file_name], or the message
    of the [ValueError] it raises. *)
Definition read_file (file_name : string) : (reader * string) + string :=
  let file_format := lower (last_field "."%char file_name) in
  if file_format =? "csv" then inl (ReadCsv, file_name)
  else if existsb (String.eqb file_format) ["xls"; "xlsx"; "xlsm"; "xlsb"; "ods"]
  then inl (ReadExcel, file_name)
  else if file_format =? "json" then inl (ReadJson, file_name)
  else if file_format =? "xml" then inl (ReadXml, file_name)
  else inr ("Unsupported file format: " ++ file_format).

(** Where a rating lies before clipping. *)
Definition above_five (x : xnum) : Prop :=
  match x with XFin q => (5 < q)%Q | XPosInf => True | XNegInf => False end.
Definition below_zero (x : xnum) : Prop :=
  match x with XFin q => (q < 0)%Q | XNegInf => True | XPosInf => False end.

End Frame.

(** ** One turn of the [while True] loop of main.py (lines 87-116) *)
Module Main.
Import Py Frame.

(** The ["review"] value of [chain.invoke]: a string, or the pandas
    Series [clean_df['text'].head(5)]. *)
Inductive review_input :=
| RText (s : string)
| RSeries (l : list cell).

(** How one turn ends: [break], a call of the model on a prompt holding
    [review], or an exception that ends the program. *)
Inductive turn :=
| TBreak
| TInvoke (review : review_input)
| TRaise (exn : string).

(** The variables of [template] (main.py lines 8-53). *)
Definition template_variables : list string := ["location"; "review"].

(** [chain.invoke(inputs)] with [chain = prompt | model]: the
    [ChatPromptTemplate] first checks that every template variable is a key
    of [inputs], and raises [KeyError] if one is missing; only then is the
    model called. *)
Definition chain_invoke (keys : list string) (review : review_input) : turn :=
  if forallb (fun v => existsb (String.eqb v) keys) template_variables
  then TInvoke review
  else TRaise "KeyError".

(** main.py line 115: [chain.invoke({"reference": [], "review": user_input})]. *)
Definition invoke_review (user_input : review_input) : turn :=
  chain_invoke ["reference"; "review"] user_input.

Section Turn.
Variable parse_number : string -> option xnum.
Variable num_str : xnum -> string.
(** The pandas reader called on a file: [None] when it raises. *)
Variable load : reader -> string -> option dataframe.

(** [mode_line] is the first [input()], [next_line] the second one (read
    only in the ["individual"] and ["file"] modes). *)
Definition main_turn (mode_line next_line : string) : turn :=
  let mode := lower (strip mode_line) in
  if mode =? "quit" then invoke_review (RText EmptyString)
  else if mode =? "individual" then
    let review := strip next_line in
    if lower review =? "quit" then TBreak else invoke_review (RText review)
  else if mode =? "file" then
    let file_name := strip next_line in
    if lower file_name =? "quit" then TBreak
    else
      match read_file file_name with
      | inr msg => TRaise msg
      | inl (rd, fn) =>
          match load rd fn with
          | None => TRaise "reader error"
          | Some df =>
              match clean_dataframe parse_number num_str df with
              | None => TRaise "astype error"
              | Some clean_df =>
                  if Nat.ltb 0 (length clean_df)
                  then invoke_review (RSeries (firstn 5 (map text clean_df)))
                  else invoke_review (RText EmptyString)
              end
          end
      end
  else invoke_review (RText EmptyString).

End Turn.
End Main.


(** ** Scoring step

    Modelled from the spec: the scoring script ([canonicalize_decision],
    [canonicalize_violation] and the row-by-row comparison, spec section
    4.1-4.2) is not among the source files.  The decision table and the
    alias table are not listed by the spec; they are parameters here. *)
Module Score.
Import Py.

(** [s.split()]: the maximal runs of non-whitespace characters. *)
Fixpoint split_ws_from (s cur : string) : list string :=
  match s with
  | EmptyString => if cur =? EmptyString then [] else [cur]
  | String c r =>
      if is_space c then
        if cur =? EmptyString then split_ws_from r EmptyString
        else cur :: split_ws_from r EmptyString
      else split_ws_from r (cur ++ String c EmptyString)
  end.

Definition split_ws (s : string) : list string := split_ws_from s EmptyString.

(** Modelled from the spec: trim, lowercase, collapse internal whitespace
    to single spaces. *)
Definition normalize_label (text : string) : string :=
  String.concat " " (split_ws (lower (strip text))).

Fixpoint assoc (k : string) (t : list (string * string)) : option string :=
  match t with
  | [] => None
  | (k', v) :: r => if k =? k' then Some v else assoc k r
  end.

Section Tables.
(** The fixed decision table and alias table (normalized key, canonical
    label). *)
Variable decision_table : list (string * string).
Variable alias_table : list (string * string).

(** Modelled from the spec: [canonicalize_decision]. *)
Definition canonicalize_decision (text : string) : string :=
  let t := normalize_label text in
  if prefix "valid" t then "Valid"
  else if prefix "flag" t then "Flagged"
  else match assoc t decision_table with
       | Some c => c
       | None => strip text
       end.

Definition canonical_violations : list string :=
  ["No Advertisement"; "No Irrelevant Content"; "No Rant Without Visit"; "None"].

(** Modelled from the spec: [canonicalize_violation]. *)
Definition canonicalize_violation (text : string) : string :=
  let t := normalize_label text in
  match find (fun c => normalize_label c =? t) canonical_violations with
  | Some c => c
  | None =>
      match assoc t alias_table with
      | Some c => c
      | None =>
          if contains "advert" t || contains "promo" t then "No Advertisement"
          else if contains "irrelev" t || contains "offtopic" t then "No Irrelevant Content"
          else if contains "visit" t || contains "hearsay" t || contains "speculat" t
                  || contains "rant" t then "No Rant Without Visit"
          else if t =? EmptyString then "None"
          else strip text
      end
  end.

(** Modelled from the spec: the Valid-to-None override applied by the
    caller. *)
Definition effective_violation (decision violation : string) : string :=
  if canonicalize_decision decision =? "Valid" then "None"
  else canonicalize_violation violation.

Record score_input := {
  row_id : option string;
  pred_decision : string; pred_violation : string;
  gt_decision : string; gt_violation : string;
  review : string }.

Record mismatch := {
  m_id : option string;
  m_pred_decision : string; m_gt_decision : string;
  m_pred_violation : string; m_gt_violation : string;
  m_review : string }.

Record scored := {
  s_decision_match : bool;
  s_violation_match : bool;
  s_pred_violation : string;
  s_gt_violation : string;
  s_mismatch : option mismatch }.

(** Modelled from the spec: the comparison of one row. *)
Definition score_row (r : score_input) : scored :=
  let pd := canonicalize_decision (pred_decision r) in
  let gd := canonicalize_decision (gt_decision r) in
  let pv := effective_violation (pred_decision r) (pred_violation r) in
  let gv := effective_violation (gt_decision r) (gt_violation r) in
  {| s_decision_match := pd =? gd;
     s_violation_match := pv =? gv;
     s_pred_violation := pv;
     s_gt_violation := gv;
     s_mismatch :=
       if pv =? gv then None
       else Some {| m_id := row_id r; m_pred_decision := pd; m_gt_decision := gd;
                    m_pred_violation := pv; m_gt_violation := gv;
                    m_review := review r |} |}.

End Tables.
End Score.


(** ** Per-row view of the [process_csv] loop, used to state its trace *)
Module Trace.
Import Py Csv.

Definition is_prompt (e : event) : Prop :=
  match e with EPrompt _ => True | _ => False end.

(** The model calls one CSV record gives rise to: none for a blank line
    (skipped by [DictReader]) or a blank review, otherwise one call with
    this record's own location and review. *)
Definition row_invocations (headers : list string) (loc_col rev_col : string)
  (raw : list string) : list event :=
  match raw with
  | [] => []
  | _ =>
      let row := read_row headers raw in
      match get_or_empty row loc_col, get_or_empty row rev_col with
      | Some l, Some r =>
          if strip r =? EmptyString then [] else [EInvoke (strip (strip l)) (strip (strip r))]
      | _, _ => []
      end
  end.

Definition nonempty_record (raw : list string) : bool :=
  match raw with [] => false | _ => true end.

(** The part of a path after a dot that [os.path.splitext] treats as an
    extension holds no dot and no slash. *)
Definition no_dot_or_slash (r : string) : Prop :=
  forall k c, get k r = Some c -> c <> "."%char /\ c <> "/"%char.

(** The dict [DictReader] builds for a record no longer than the header,
    when the header names are distinct. *)
Definition reader_dict (hs raw : list string) : row_dict :=
  (map (fun p => (Some (fst p), VStr (snd p))) (combine hs raw) ++
   map (fun h => (Some h, VNone)) (skipn (length raw) hs))%list.

End Trace.


(** ** The mode-select loop of test.py (lines 174-199), one turn *)
Module TestMain.
Import Py Parse Csv.

Definition DQ : ascii := ascii_of_nat 34.
Definition SQ : ascii := ascii_of_nat 39.

Fixpoint lstrip_char (ch : ascii) (s : string) : string :=
  match s with
  | EmptyString => EmptyString
  | String c r => if Ascii.eqb c ch then lstrip_char ch r else s
  end.

Fixpoint rstrip_char (ch : ascii) (s : string) : string :=
  match s with
  | EmptyString => EmptyString
  | String c r =>
      let r' := rstrip_char ch r in
      if (r' =? EmptyString) && Ascii.eqb c ch then EmptyString else String c r'
  end.

(** [s.strip(ch)] for a one-character argument. *)
Definition strip_char (ch : ascii) (s : string) : string :=
  rstrip_char ch (lstrip_char ch s).

(** test.py line 194: [input(...).strip()], then [.strip] of the double
    quote character [DQ], then [.strip] of the single quote [SQ]. *)
Definition clean_path (line : string) : string :=
  strip_char SQ (strip_char DQ (strip line)).

(** What one turn of the loop does: leave the loop, call [evaluate], call
    [process_csv], or print the usage line and go round again. *)
Inductive test_step :=
| SBreak
| SEvaluate (ev : event) (result : option (string * string * string * string))
| SProcess (csv_path : string) (r : run)
| SUsage.

(** [mode_line], [line2] and [line3] are the lines typed at the prompts of
    the turn; [fs] gives the CSV records of a path ([None]: not a file);
    [answers] are the lines typed at [process_csv]'s own prompts. *)
Definition test_turn (model : llm) (fs : string -> option (list (list string)))
  (answers : list string) (mode_line line2 line3 : string) : test_step :=
  let mode := lower (strip mode_line) in
  if mode =? "q" then SBreak
  else if mode =? "i" then
    let location_input := strip line2 in
    if lower location_input =? "q" then SBreak
    else
      let review_input := strip line3 in
      let '(ev, res) := evaluate model location_input review_input in
      SEvaluate ev res
  else if mode =? "f" then
    let csv_path := clean_path line2 in
    SProcess csv_path (process_csv model (fs csv_path) answers csv_path)
  else SUsage.

End TestMain.

(** ** Concrete inputs used by the examples below *)
Module Samples.
Import Py Csv Frame Score.

Definition nl : string := chr 10.

Definition sample_output : string :=
  "Decision: Flagged" ++ nl ++ "Primary Violation: No Advertisement" ++ nl ++
  "Explanation: Contains a promotional link.".

Definition sample_file : list (list string) :=
  [["location"; "review"]; ["Cafe Luna"; "Great coffee"]; ["Cafe Luna"; "  "]].

Definition sample_model : llm := fun _ _ => sample_output.

Definition prompt_location : string := "Enter the column name for LOCATION: ".

Definition prompt_review : string := "Enter the column name for REVIEW: ".

Definition sample_score : score_input :=
  {| row_id := Some "7"; pred_decision := "Valid"; pred_violation := "speculation";
     gt_decision := " valid "; gt_violation := ""; review := "Lovely staff." |}.

Definition file_mode_sample : dataframe :=
  [{| rating := CStr "4"; text := CStr "Great food"; others := [] |};
   {| rating := CNum (XFin 7); text := CStr "   "; others := [] |}].

End Samples.


Module ParseFacts.
Import Py Parse.

Ltac scan_split H :=
  repeat match type of H with
  | context [if ?b then _ else _] =>
      let E := fresh "E" in destruct b eqn:E
  | context [match after_colon ?l with _ => _ end] =>
      let E := fresh "A" in destruct (after_colon l) eqn:E; [|discriminate H]
  end.

(** Every field the scan ends with is its start value or comes from a line
    carrying that field's token. *)
Lemma scan_sound : forall ls d0 v0 e0 d v e,
  scan ls d0 v0 e0 = Some (d, v, e) ->
  (d = d0 \/ exists ln, In ln ls /\ has_tok tok_decision ln = true /\ after_colon ln = Some d) /\
  (v = v0 \/ exists ln, In ln ls /\ has_tok tok_violation ln = true /\ after_colon ln = Some v) /\
  (e = e0 \/ exists ln, In ln ls /\ has_tok tok_explanation ln = true /\ after_colon ln = Some e).
Proof.
  induction ls as [|ln rest IH]; intros d0 v0 e0 d v e H; simpl in H.
  - inversion H; subst; auto.
  - scan_split H;
      apply IH in H; destruct H as (Hd & Hv & He);
      repeat (apply andb_true_iff in E as [E ?] || apply andb_true_iff in E0 as [E0 ?]
              || apply andb_true_iff in E1 as [E1 ?]);
      repeat split;
      repeat match goal with
      | Hx : _ = ?x0 \/ _ |- _ = ?x0 \/ _ =>
          destruct Hx as [?|(l & ? & ? & ?)];
          [left; assumption | right; exists l; simpl; repeat split; auto]
      | Hx : _ = _ \/ _ |- _ =>
          destruct Hx as [->|(l & ? & ? & ?)];
          right; [exists ln; simpl; repeat split; auto; congruence | exists l; simpl; repeat split; auto]
      end.
Qed.

Lemma scan_no_decision_line : forall ls d0 v0 e0 d v e,
  scan ls d0 v0 e0 = Some (d, v, e) -> filter (has_tok tok_decision) ls = [] -> d = d0.
Proof.
  induction ls as [|ln rest IH]; intros d0 v0 e0 d v e H Hf; simpl in H, Hf.
  - congruence.
  - destruct (has_tok tok_decision ln) eqn:T; [discriminate|]. simpl in H.
    scan_split H; eapply IH; eauto.
Qed.

Lemma scan_no_violation_line : forall ls d0 v0 e0 d v e,
  scan ls d0 v0 e0 = Some (d, v, e) -> filter (has_tok tok_violation) ls = [] -> v = v0.
Proof.
  induction ls as [|ln rest IH]; intros d0 v0 e0 d v e H Hf; simpl in H, Hf.
  - congruence.
  - destruct (has_tok tok_violation ln) eqn:T; [discriminate|]. simpl in H.
    scan_split H; eapply IH; eauto.
Qed.

Lemma scan_no_explanation_line : forall ls d0 v0 e0 d v e,
  scan ls d0 v0 e0 = Some (d, v, e) -> filter (has_tok tok_explanation) ls = [] -> e = e0.
Proof.
  induction ls as [|ln rest IH]; intros d0 v0 e0 d v e H Hf; simpl in H, Hf.
  - congruence.
  - destruct (has_tok tok_explanation ln) eqn:T; [discriminate|]. simpl in H.
    scan_split H; eapply IH; eauto.
Qed.

Lemma scan_unique_decision : forall ls v0 e0 d v e L,
  scan ls EmptyString v0 e0 = Some (d, v, e) ->
  filter (has_tok tok_decision) ls = [L] -> after_colon L = Some d.
Proof.
  induction ls as [|ln rest IH]; intros v0 e0 d v e L H Hf; simpl in H, Hf; [discriminate|].
  destruct (has_tok tok_decision ln) eqn:T.
  - injection Hf as <- Hf. simpl in H.
    destruct (after_colon ln) eqn:A; [|discriminate].
    apply scan_no_decision_line in H; congruence.
  - simpl in H. scan_split H; eapply IH; eauto.
Qed.

Lemma scan_unique_violation : forall ls d0 e0 d v e L,
  scan ls d0 EmptyString e0 = Some (d, v, e) ->
  filter (has_tok tok_violation) ls = [L] ->
  has_tok tok_decision L = false -> after_colon L = Some v.
Proof.
  induction ls as [|ln rest IH]; intros d0 e0 d v e L H Hf HL; simpl in H, Hf; [discriminate|].
  destruct (has_tok tok_violation ln) eqn:T.
  - injection Hf as <- Hf. rewrite HL in H. simpl in H.
    destruct (after_colon ln) eqn:A; [|discriminate].
    apply scan_no_violation_line in H; congruence.
  - simpl in H. scan_split H; eapply IH; eauto.
Qed.

Lemma scan_unique_explanation : forall ls d0 v0 d v e L,
  scan ls d0 v0 EmptyString = Some (d, v, e) ->
  filter (has_tok tok_explanation) ls = [L] ->
  has_tok tok_decision L = false -> has_tok tok_violation L = false ->
  after_colon L = Some e.
Proof.
  induction ls as [|ln rest IH]; intros d0 v0 d v e L H Hf HL1 HL2; simpl in H, Hf; [discriminate|].
  destruct (has_tok tok_explanation ln) eqn:T.
  - injection Hf as <- Hf. rewrite HL1, HL2 in H. simpl in H.
    destruct (after_colon ln) eqn:A; [|discriminate].
    apply scan_no_explanation_line in H; congruence.
  - simpl in H. scan_split H; eapply IH; eauto.
Qed.

End ParseFacts.

Module PathFacts.
Import Py Csv Trace.

Lemma rfind_none : forall c s, rfind c s = None ->
  forall j c', get j s = Some c' -> c' <> c.
Proof.
  intros c s; induction s as [|a r IH]; intros H j c' Hg; simpl in *; [discriminate|].
  destruct (rfind c r) eqn:Er; [discriminate|].
  destruct (Ascii.eqb a c) eqn:Ea; [discriminate|].
  destruct j as [|j].
  - injection Hg as <-. intros ->. rewrite Ascii.eqb_refl in Ea. discriminate.
  - eapply IH; eauto.
Qed.

Lemma rfind_some : forall c s i, rfind c s = Some i ->
  get i s = Some c /\ forall j c', i < j -> get j s = Some c' -> c' <> c.
Proof.
  intros c s; induction s as [|a r IH]; intros i H; simpl in *; [discriminate|].
  destruct (rfind c r) as [i'|] eqn:Er.
  - injection H as <-. destruct (IH i' eq_refl) as [Hg Hl]. split; [exact Hg|].
    intros [|j] c' Hj Hget; [lia|]. apply (Hl j); [lia | exact Hget].
  - destruct (Ascii.eqb a c) eqn:Ea; [|discriminate].
    injection H as <-. apply Ascii.eqb_eq in Ea. subst a. split; [reflexivity|].
    intros [|j] c' Hj Hget; [lia|]. eapply rfind_none; eauto.
Qed.

Lemma get_lt_length : forall s k c, get k s = Some c -> k < String.length s.
Proof.
  induction s as [|a r IH]; intros [|k] c H; simpl in *; try discriminate; [lia|].
  apply IH in H. lia.
Qed.

Lemma substring_whole : forall s, substring 0 (String.length s) s = s.
Proof. induction s as [|a r IH]; simpl; [reflexivity | rewrite IH; reflexivity]. Qed.

Lemma substring_split : forall s n, n <= String.length s ->
  substring 0 n s ++ substring n (String.length s - n) s = s.
Proof.
  induction s as [|a r IH]; intros [|n] Hn; simpl in *.
  - reflexivity.
  - lia.
  - rewrite substring_whole. reflexivity.
  - rewrite IH; [reflexivity | lia].
Qed.

Lemma get_substring_tail : forall s n k c,
  get k (substring n (String.length s - n) s) = Some c -> get (k + n) s = Some c.
Proof.
  intros s n k c H.
  destruct (Nat.lt_ge_cases k (String.length s - n)) as [Hk|Hk].
  - rewrite substring_correct1 in H; assumption.
  - rewrite substring_correct2 in H; [discriminate | assumption].
Qed.

Lemma append_empty_r : forall s, s ++ EmptyString = s.
Proof. induction s as [|a r IH]; simpl; [reflexivity | rewrite IH; reflexivity]. Qed.

(** [splitext] cuts the path in two, and the second part is empty or one
    dot followed by text without dots and slashes. *)
Lemma splitext_shape : forall p base ext, splitext p = (base, ext) ->
  p = base ++ ext /\
  (ext = EmptyString \/ exists r, ext = String "."%char r /\ no_dot_or_slash r).
Proof.
  intros p base ext H. unfold splitext in H.
  destruct (rfind "."%char p) as [dot|] eqn:Hd.
  2:{ injection H as <- <-. split; [symmetry; apply append_empty_r | left; reflexivity]. }
  destruct (rfind_some _ _ _ Hd) as [Hdot Hlast].
  pose proof (get_lt_length _ _ _ Hdot) as Hlt.
  destruct (_ && _) eqn:Hc.
  2:{ injection H as <- <-. split; [symmetry; apply append_empty_r | left; reflexivity]. }
  injection H as <- <-. split; [symmetry; apply substring_split; lia|].
  right.
  remember (substring dot (String.length p - dot) p) as e eqn:He.
  assert (H0 : get 0 e = Some "."%char).
  { subst e. rewrite substring_correct1 by lia. exact Hdot. }
  destruct e as [|x r]; [discriminate|]. injection H0 as ->.
  exists r. split; [reflexivity|].
  intros k c Hk.
  assert (Hp : get (S k + dot) p = Some c).
  { apply get_substring_tail. rewrite <- He. exact Hk. }
  split.
  - apply (Hlast (S k + dot)); [lia | exact Hp].
  - apply andb_true_iff in Hc as [Hsep _].
    destruct (rfind "/"%char p) as [sep|] eqn:Hs.
    + apply Nat.ltb_lt in Hsep. destruct (rfind_some _ _ _ Hs) as [_ Hl].
      apply (Hl (S k + dot)); [lia | exact Hp].
    + eapply rfind_none; eauto.
Qed.

End PathFacts.

Module CsvFacts.
Import Py Parse Csv Trace.

Lemma write_rows_ok : forall model hs oh loc rev rows evs lines,
  write_rows model hs oh loc rev rows = (evs, lines, None) ->
  evs = flat_map (row_invocations hs loc rev) rows /\
  Forall2 (fun raw line =>
             forall r, get_or_empty (read_row hs raw) rev = Some r -> strip r = EmptyString ->
             writerow oh (set_result (read_row hs raw) "" "" "") = Some line)
          (filter nonempty_record rows) lines.
Proof.
  induction rows as [|raw rest IH]; intros evs lines H; simpl in H.
  - injection H as <- <-. split; [reflexivity | constructor].
  - destruct raw as [|c cs].
    + apply IH in H. exact H.
    + simpl. unfold row_invocations at 1.
      destruct (get_or_empty (read_row hs (c :: cs)) loc) as [l|] eqn:El;
        [|discriminate H].
      destruct (get_or_empty (read_row hs (c :: cs)) rev) as [r|] eqn:Er;
        [|discriminate H].
      destruct (strip r =? EmptyString) eqn:Eb.
      * destruct (writerow oh (set_result (read_row hs (c :: cs)) "" "" "")) as [line|] eqn:Ew;
          [|discriminate H].
        destruct (write_rows model hs oh loc rev rest) as [[evs' lines'] exn] eqn:Ewr.
        injection H as <- <- ->. destruct (IH _ _ eq_refl) as [He Hl].
        split; [exact He|]. constructor; [|exact Hl].
        intros r' Hr' _. exact Ew.
      * unfold evaluate in H. simpl in H.
        match type of H with
        | context [match _parse_model_output ?x with _ => _ end] =>
            destruct (_parse_model_output x) as [[[d v] e]|] eqn:Ep; [|discriminate H]
        end.
        destruct (writerow oh (set_result (read_row hs (c :: cs)) d v e)) as [line|] eqn:Ew;
          [|discriminate H].
        destruct (write_rows model hs oh loc rev rest) as [[evs' lines'] exn] eqn:Ewr.
        injection H as <- <- ->. destruct (IH _ _ eq_refl) as [He Hl].
        split; [simpl; rewrite He; reflexivity|]. constructor; [|exact Hl].
        intros r' Hr' Hb. rewrite Er in Hr'. injection Hr' as <-. rewrite Hb in Eb. discriminate.
Qed.

(** What every run of [process_csv] that returns has done. *)
Lemma process_csv_return : forall model file answers path out,
  r_outcome (process_csv model file answers path) = Return out ->
  exists headers rows loc_col rev_col prompts evs lines,
    file = Some (headers :: rows) /\ headers <> [] /\
    write_rows model headers (headers ++ appended_columns)%list loc_col rev_col rows
      = (evs, lines, None) /\
    out = evaluated_path path /\
    r_events (process_csv model file answers path) = (prompts ++ evs)%list /\
    Forall is_prompt prompts /\
    r_file (process_csv model file answers path) =
      Some {| of_path := out; of_header := (headers ++ appended_columns)%list;
              of_rows := lines |}.
Proof.
  intros model file answers path out H.
  unfold process_csv in *.
  destruct file as [[|hs rows]|]; try discriminate.
  destruct hs as [|h t]; try discriminate.
  destruct (_guess_columns (h :: t)) as [gl gr].
  destruct (py_not gl || py_not gr) eqn:Eg.
  - destruct answers as [|a1 [|a2 more]]; try discriminate.
    destruct (negb (py_in (strip a1) (h :: t)) || negb (py_in (strip a2) (h :: t)));
      try discriminate.
    destruct (write_rows model (h :: t) ((h :: t) ++ appended_columns)%list
                (strip a1) (strip a2) rows) as [[evs lines] [x|]] eqn:Ew;
      try discriminate.
    simpl in H. injection H as <-.
    exists (h :: t), rows, (strip a1), (strip a2), [EPrompt "Enter the column name for LOCATION: ";
      EPrompt "Enter the column name for REVIEW: "], evs, lines.
    repeat split; try assumption; try discriminate.
    repeat constructor.
  - destruct (write_rows model (h :: t) ((h :: t) ++ appended_columns)%list
                (match gl with Some l => l | None => EmptyString end)
                (match gr with Some r => r | None => EmptyString end) rows)
      as [[evs lines] [x|]] eqn:Ew; try discriminate.
    simpl in H. injection H as <-.
    do 4 eexists. exists [], evs, lines.
    repeat split; try eassumption; try discriminate.
    constructor.
Qed.

End CsvFacts.

(** ** Rows as dicts: what [read_row], [set_result] and [writerow] do to a
    record when the header names are distinct. *)
Module RowFacts.
Import Py Csv Trace.

Lemma key_eqb_true : forall a b, key_eqb a b = true <-> a = b.
Proof.
  intros [a|] [b|]; simpl; split; intro H; try discriminate; try reflexivity.
  - apply String.eqb_eq in H. subst. reflexivity.
  - injection H as ->. apply String.eqb_refl.
Qed.

Lemma set_fresh : forall (d : row_dict) k v,
  ~ In k (map fst d) -> Dict.set key_eqb k v d = (d ++ [(k, v)])%list.
Proof.
  induction d as [|[k' v'] r IH]; intros k v Hn; simpl in *; [reflexivity|].
  destruct (key_eqb k k') eqn:E.
  - apply key_eqb_true in E. subst. exfalso. apply Hn. left. reflexivity.
  - rewrite IH; [reflexivity | tauto].
Qed.

Lemma fold_set_fresh {A : Type} (kf : A -> option string) (vf : A -> pyval) :
  forall (l : list A) (d : row_dict),
  NoDup (map fst d ++ map kf l) ->
  fold_left (fun d x => Dict.set key_eqb (kf x) (vf x) d) l d
  = (d ++ map (fun x => (kf x, vf x)) l)%list.
Proof.
  induction l as [|x l IH]; intros d Hnd; simpl.
  - rewrite app_nil_r. reflexivity.
  - rewrite set_fresh.
    + rewrite IH.
      * rewrite <- app_assoc. reflexivity.
      * rewrite map_app, <- app_assoc. exact Hnd.
    + intro Hin. apply (NoDup_remove_2 _ _ _ Hnd). apply in_or_app. left. exact Hin.
Qed.

Lemma get_nodup_in : forall (d : row_dict) k v,
  NoDup (map fst d) -> In (k, v) d -> Dict.get key_eqb k d = Some v.
Proof.
  induction d as [|[k' v'] r IH]; intros k v Hnd Hin; simpl in *; [contradiction|].
  inversion Hnd as [|? ? Hn Hnd']; subst.
  destruct (key_eqb k k') eqn:E.
  - apply key_eqb_true in E. subst.
    destruct Hin as [Heq|Hin]; [injection Heq as <-; reflexivity|].
    exfalso. apply Hn. apply (in_map fst) in Hin. exact Hin.
  - destruct Hin as [Heq|Hin].
    + injection Heq as -> ->. rewrite (proj2 (key_eqb_true k k) eq_refl) in E. discriminate.
    + apply IH; assumption.
Qed.

Lemma nodup_map_some : forall l : list string, NoDup l -> NoDup (map Some l).
Proof.
  induction l as [|x l IH]; intro H; simpl; constructor.
  - inversion H; subst. rewrite in_map_iff. intros (y & Hy & Hin). injection Hy as ->.
    contradiction.
  - inversion H; subst. apply IH. assumption.
Qed.

Lemma map_fst_combine : forall (hs raw : list string),
  map fst (combine hs raw) = firstn (length raw) hs.
Proof.
  induction hs as [|h t IH]; intros [|r rs]; simpl; try reflexivity.
  rewrite IH. reflexivity.
Qed.

Lemma in_combine_nth : forall (hs raw : list string) i,
  i < length hs -> i < length raw ->
  In (nth i hs EmptyString, nth i raw EmptyString) (combine hs raw).
Proof.
  induction hs as [|h t IH]; intros [|r rs] i H1 H2; simpl in *; try lia.
  destruct i as [|i]; [left; reflexivity | right; apply IH; lia].
Qed.

Lemma in_skipn_nth : forall (hs : list string) k i,
  k <= i -> i < length hs -> In (nth i hs EmptyString) (skipn k hs).
Proof.
  induction hs as [|h t IH]; intros k i H1 H2; simpl in *; [lia|].
  destruct k as [|k].
  - destruct i as [|i]; [left; reflexivity | right; apply nth_In; lia].
  - destruct i as [|i]; [lia|]. apply IH; lia.
Qed.

Lemma reader_dict_keys : forall hs raw, length raw <= length hs ->
  map fst (reader_dict hs raw) = map Some hs.
Proof.
  intros hs raw Hl. unfold reader_dict. rewrite map_app, !map_map. simpl.
  rewrite <- (map_map fst Some), map_fst_combine, <- map_app, firstn_skipn.
  reflexivity.
Qed.

Lemma read_row_dict : forall hs raw,
  NoDup hs -> length raw <= length hs -> read_row hs raw = reader_dict hs raw.
Proof.
  intros hs raw Hnd Hl. unfold read_row, reader_dict.
  pose proof (nodup_map_some _ Hnd) as Hs.
  rewrite <- (firstn_skipn (length raw) hs) in Hs. rewrite map_app in Hs.
  rewrite (fold_set_fresh (fun kv => Some (fst kv)) (fun kv => VStr (snd kv)));
    [|simpl; rewrite <- (map_map fst Some), map_fst_combine; exact (NoDup_app_remove_r _ _ Hs)].
  simpl.
  destruct (Nat.ltb (length hs) (length raw)) eqn:E1; [apply Nat.ltb_lt in E1; lia|].
  destruct (Nat.ltb (length raw) (length hs)) eqn:E2.
  - rewrite (fold_set_fresh Some (fun _ => VNone)); [reflexivity|].
    rewrite map_map. simpl. rewrite <- (map_map fst Some), map_fst_combine. exact Hs.
  - apply Nat.ltb_ge in E2. rewrite skipn_all2 by lia. simpl. rewrite !app_nil_r.
    reflexivity.
Qed.

(** A record with a blank review is written with its own values, missing
    trailing fields as empty strings, and three empty result columns. *)
Lemma blank_row_written : forall hs raw line,
  NoDup hs -> (forall h, In h hs -> ~ In h appended_columns) ->
  length raw <= length hs ->
  writerow (hs ++ appended_columns)%list (set_result (read_row hs raw) "" "" "") = Some line ->
  length line = length hs + 3 /\
  (forall i, i < length hs -> nth i line EmptyString = nth i raw EmptyString) /\
  skipn (length hs) line = [""; ""; ""].
Proof.
  intros hs raw line Hnd Hdis Hl Hw.
  rewrite read_row_dict in Hw by assumption.
  assert (Hfresh : forall a, In a appended_columns -> ~ In (Some a) (map Some hs)).
  { intros a Ha Hin. apply in_map_iff in Hin as (h & Hh & Hin). injection Hh as ->.
    exact (Hdis _ Hin Ha). }
  unfold set_result in Hw.
  rewrite (set_fresh (reader_dict hs raw) (Some "Decision")) in Hw
    by (rewrite reader_dict_keys by lia; apply Hfresh; simpl; tauto).
  rewrite (set_fresh (reader_dict hs raw ++ [(Some "Decision", VStr "")])%list
             (Some "Primary Violation")) in Hw.
  2:{ rewrite map_app, reader_dict_keys by lia. simpl. rewrite in_app_iff. simpl.
      intros [H|[H|H]]; [revert H; apply Hfresh; simpl; tauto | discriminate | exact H]. }
  rewrite (set_fresh ((reader_dict hs raw ++ [(Some "Decision", VStr "")]) ++
                       [(Some "Primary Violation", VStr "")])%list (Some "Explanation")) in Hw.
  2:{ rewrite !map_app, reader_dict_keys by lia. simpl. rewrite !in_app_iff. simpl.
      intros [[H|[H|H]]|[H|H]];
        [revert H; apply Hfresh; simpl; tauto | discriminate | exact H | discriminate | exact H]. }
  set (D := (((reader_dict hs raw ++ [(Some "Decision", VStr "")]) ++
              [(Some "Primary Violation", VStr "")]) ++ [(Some "Explanation", VStr "")])%list) in Hw.
  assert (HkD : map fst D = map Some (hs ++ appended_columns)).
  { unfold D. rewrite !map_app, reader_dict_keys by lia. rewrite <- !app_assoc. reflexivity. }
  assert (HndD : NoDup (map fst D)).
  { rewrite HkD. apply nodup_map_some. apply NoDup_app; [exact Hnd | |].
    - repeat constructor; simpl; intuition discriminate.
    - intros a Ha1 Ha2. exact (Hdis a Ha1 Ha2). }
  unfold writerow in Hw.
  destruct (forallb _ D) eqn:Hall; [|discriminate]. injection Hw as <-.
  set (F := fun k : string => match Dict.get key_eqb (Some k) D with
                              | Some v => render v | None => EmptyString end).
  change (length (map F (hs ++ appended_columns)) = length hs + 3 /\
          (forall i, i < length hs -> nth i (map F (hs ++ appended_columns)) EmptyString
                                       = nth i raw EmptyString) /\
          skipn (length hs) (map F (hs ++ appended_columns)) = [""; ""; ""]).
  assert (HD : forall k v, In (k, v) D -> Dict.get key_eqb k D = Some v)
    by (intros; apply get_nodup_in; assumption).
  repeat split.
  - rewrite length_map, length_app. reflexivity.
  - intros i Hi. rewrite nth_indep with (d' := F EmptyString) by (rewrite length_map, length_app; lia).
    rewrite map_nth, app_nth1 by exact Hi. unfold F.
    destruct (Nat.lt_ge_cases i (length raw)) as [Hr|Hr].
    + rewrite (HD _ (VStr (nth i raw EmptyString))); [reflexivity|].
      unfold D, reader_dict. rewrite !in_app_iff. do 3 left. left.
      apply (in_map (fun p => (Some (fst p), VStr (snd p))) _ (_, _)).
      apply in_combine_nth; assumption.
    + rewrite (HD _ VNone).
      * rewrite nth_overflow by exact Hr. reflexivity.
      * unfold D, reader_dict. rewrite !in_app_iff. do 3 left. right.
        apply (in_map (fun h => (Some h, VNone))). apply in_skipn_nth; assumption.
  - rewrite map_app, skipn_app, length_map, Nat.sub_diag, skipn_all2 by (rewrite length_map; lia).
    simpl. unfold F.
    rewrite (HD (Some "Decision") (VStr "")), (HD (Some "Primary Violation") (VStr "")),
            (HD (Some "Explanation") (VStr "")); try reflexivity;
      unfold D; rewrite !in_app_iff; simpl; tauto.
Qed.

Lemma get_set_same : forall (d : row_dict) k v, Dict.get key_eqb k (Dict.set key_eqb k v d) = Some v.
Proof.
  induction d as [|[k' v'] r IH]; intros k v; simpl.
  - rewrite (proj2 (key_eqb_true k k) eq_refl). reflexivity.
  - destruct (key_eqb k k') eqn:E; simpl; rewrite E; [reflexivity | apply IH].
Qed.

Lemma get_set_other : forall (d : row_dict) k k' v, k <> k' ->
  Dict.get key_eqb k (Dict.set key_eqb k' v d) = Dict.get key_eqb k d.
Proof.
  induction d as [|[k0 v0] r IH]; intros k k' v Hne; simpl.
  - destruct (key_eqb k k') eqn:E; [apply key_eqb_true in E; contradiction | reflexivity].
  - destruct (key_eqb k' k0) eqn:E0; simpl.
    + apply key_eqb_true in E0. subst k0.
      destruct (key_eqb k k') eqn:E; [apply key_eqb_true in E; contradiction | reflexivity].
    + destruct (key_eqb k k0); [reflexivity | apply IH; exact Hne].
Qed.

(** Whatever the header, a written record of a blank review has the
    header's length plus three, and its three result columns are empty. *)
Lemma blank_row_result_columns : forall hs d line,
  writerow (hs ++ appended_columns)%list (set_result d "" "" "") = Some line ->
  length line = length hs + 3 /\ skipn (length hs) line = [""; ""; ""].
Proof.
  intros hs d line Hw. unfold writerow in Hw.
  destruct (forallb _ _); [|discriminate]. injection Hw as <-.
  rewrite length_map, length_app. split; [reflexivity|].
  rewrite map_app, skipn_app, length_map, Nat.sub_diag, skipn_all2 by (rewrite length_map; lia).
  simpl. unfold set_result.
  rewrite get_set_other by discriminate. rewrite get_set_other by discriminate.
  rewrite get_set_same.
  rewrite get_set_other by discriminate. rewrite get_set_same.
  rewrite get_set_same. reflexivity.
Qed.

End RowFacts.

Module FrameFacts.
Import Py Frame.

Lemma in_drop_duplicates_from : forall df seen r,
  In r (drop_duplicates_from seen df) -> In r df.
Proof.
  induction df as [|r0 rest IH]; intros seen r H; simpl in *; [contradiction|].
  destruct (existsb (row_eqb r0) seen).
  - right. eapply IH; eauto.
  - destruct H as [H|H]; [left; exact H | right; eapply IH; eauto].
Qed.

Lemma astype_int_total : forall l,
  (forall r, In r l -> exists q, rating r = CNum (XFin q)) ->
  exists l', astype_int l = Some l'.
Proof.
  induction l as [|r rest IH]; intros H; simpl; [eexists; reflexivity|].
  destruct (H r (or_introl eq_refl)) as [q Hq]. rewrite Hq. simpl.
  destruct IH as [l' Hl']; [intros r' Hr'; apply H; right; exact Hr'|].
  rewrite Hl'. eexists. reflexivity.
Qed.

Lemma astype_int_in : forall l l', astype_int l = Some l' ->
  forall r', In r' l' -> exists r q, In r l /\ rating r = CNum (XFin q) /\
    r' = set_rating r (CNum (XFin (inject_Z (Z.quot (Qnum q) (Zpos (Qden q)))))).
Proof.
  induction l as [|r rest IH]; intros l' H r' Hin; simpl in H.
  - injection H as <-. contradiction.
  - destruct (to_int_cell (rating r)) as [c|] eqn:Ec; [|discriminate].
    destruct (astype_int rest) as [rest'|] eqn:Er; [|discriminate].
    injection H as <-. destruct Hin as [<-|Hin].
    + destruct (rating r) as [[q| |]| |] eqn:Hr; try discriminate.
      injection Ec as <-. exists r, q. split; [left; reflexivity|auto].
    + destruct (IH rest' eq_refl r' Hin) as (r0 & q & ? & ? & ?).
      exists r0, q. split; [right; assumption|auto].
Qed.

Lemma clip05_range : forall x, exists q, clip05 x = XFin q /\
  (0 <= Qnum q)%Z /\ (Qnum q <= 5 * Zpos (Qden q))%Z /\
  (above_five x -> q = 5%Q) /\ (below_zero x -> q = 0%Q).
Proof.
  intros [q| |]; simpl.
  - destruct (Qle_bool 0 q) eqn:E1; simpl.
    + apply Qle_bool_iff in E1. destruct (Qle_bool q 5) eqn:E2; simpl.
      * apply Qle_bool_iff in E2. exists q.
        unfold Qle, Qlt in *; simpl in *. repeat split; try lia.
      * exists 5%Q. repeat split; try (simpl; lia).
        intros Hq. exfalso. unfold Qle, Qlt in *; simpl in *. lia.
    + exists 0%Q. repeat split; try (simpl; lia).
      intros Hq. exfalso.
      assert (Qle_bool 0 q = true) as E1'
        by (apply Qle_bool_iff; unfold Qle, Qlt in *; simpl in *; lia).
      congruence.
  - exists 5%Q. repeat split; simpl; try lia; contradiction.
  - exists 0%Q. repeat split; simpl; try lia; contradiction.
Qed.

Lemma quot_range : forall q : Q,
  (0 <= Qnum q)%Z -> (Qnum q <= 5 * Zpos (Qden q))%Z ->
  (0 <= Z.quot (Qnum q) (Zpos (Qden q)) <= 5)%Z.
Proof.
  intros [n d] H1 H2; simpl in *.
  rewrite Z.quot_div_nonneg by lia. split.
  - apply Z.div_pos; lia.
  - apply Z.div_le_upper_bound; lia.
Qed.

End FrameFacts.

Module StrFacts.
Import Py Parse Csv TestMain.

(** [strip] is idempotent, so the lines [py_lines] keeps are trimmed. *)
Lemma lstrip_head : forall s c r, lstrip s = String c r -> is_space c = false.
Proof.
  induction s as [|a s IH]; intros c r H; simpl in H; [discriminate|].
  destruct (is_space a) eqn:E; [exact (IH _ _ H)|].
  injection H as <- _. exact E.
Qed.

Lemma rstrip_idem : forall s, rstrip (rstrip s) = rstrip s.
Proof.
  induction s as [|a s IH]; simpl; [reflexivity|].
  destruct ((rstrip s =? EmptyString) && is_space a) eqn:E; simpl; [reflexivity|].
  rewrite IH, E. reflexivity.
Qed.

Lemma lstrip_rstrip : forall s,
  (forall c r, s = String c r -> is_space c = false) -> lstrip (rstrip s) = rstrip s.
Proof.
  intros [|a s] H; simpl; [reflexivity|].
  rewrite (H a s eq_refl), andb_false_r. simpl. rewrite (H a s eq_refl). reflexivity.
Qed.

Lemma strip_idem : forall s, strip (strip s) = strip s.
Proof.
  intro s. unfold strip. rewrite lstrip_rstrip.
  - apply rstrip_idem.
  - intros c r H. exact (lstrip_head _ _ _ H).
Qed.

Lemma nonblank_stripped_in : forall ls ln, In ln (nonblank_stripped ls) ->
  exists l, In l ls /\ ln = strip l /\ ln <> EmptyString.
Proof.
  induction ls as [|l ls IH]; intros ln H; simpl in H; [contradiction|].
  destruct (strip l =? EmptyString) eqn:E.
  - destruct (IH _ H) as (l' & ? & ? & ?). exists l'. simpl. auto.
  - destruct H as [<-|H].
    + exists l. split; [left; reflexivity|]. split; [reflexivity|].
      apply String.eqb_neq. exact E.
    + destruct (IH _ H) as (l' & ? & ? & ?). exists l'. simpl. auto.
Qed.

(** Substrings. *)
Lemma prefix_iff : forall x t, prefix x t = true <-> exists post, t = x ++ post.
Proof.
  induction x as [|a x IH]; intros t.
  - destruct t; simpl; split; intros _; try reflexivity; eexists; reflexivity.
  - destruct t as [|b t]; cbn [prefix].
    + split; [discriminate | intros [post H]; discriminate].
    + destruct (ascii_dec a b) as [<-|Hne].
      * rewrite IH. split; intros [post H]; exists post;
          [rewrite H; reflexivity | injection H as H; exact H].
      * split; [discriminate | intros [post H]; injection H as H _; congruence].
Qed.

Lemma contains_iff : forall x t,
  contains x t = true <-> exists pre post, t = pre ++ x ++ post.
Proof.
  intros x t. induction t as [|b t IH]; cbn [contains]; rewrite orb_true_iff, prefix_iff.
  - split.
    + intros [[post H]|H]; [exists EmptyString, post; exact H | discriminate].
    + intros (pre & post & H). destruct pre; [left; exists post; exact H | discriminate].
  - rewrite IH. split.
    + intros [[post H]|(pre & post & H)].
      * exists EmptyString, post. exact H.
      * exists (String b pre), post. rewrite H. reflexivity.
    + intros (pre & post & H). destruct pre as [|c pre].
      * left. exists post. exact H.
      * right. injection H as <- H. exists pre, post. exact H.
Qed.

Lemma lower_app : forall s1 s2, lower (s1 ++ s2) = lower s1 ++ lower s2.
Proof. induction s1 as [|a s1 IH]; intros s2; simpl; [reflexivity | rewrite IH; reflexivity]. Qed.

Lemma lower_char_upper : forall c,
  nat_of_ascii (lower_char c) < 65 \/ 90 < nat_of_ascii (lower_char c).
Proof.
  intro c. unfold lower_char.
  destruct (Nat.leb 65 (nat_of_ascii c) && Nat.leb (nat_of_ascii c) 90) eqn:E.
  - apply andb_true_iff in E as [E1 E2]. apply Nat.leb_le in E1, E2.
    rewrite nat_ascii_embedding by lia. lia.
  - apply andb_false_iff in E as [E|E]; apply Nat.leb_gt in E; lia.
Qed.

(** [lower] leaves every character that is not an ASCII capital alone. *)
Lemma lower_char_fixed : forall c,
  (nat_of_ascii c < 65 \/ 90 < nat_of_ascii c) -> lower_char c = c.
Proof.
  intros c H. unfold lower_char.
  destruct (Nat.leb 65 (nat_of_ascii c) && Nat.leb (nat_of_ascii c) 90) eqn:E; [|reflexivity].
  apply andb_true_iff in E as [E1 E2]. apply Nat.leb_le in E1, E2. lia.
Qed.

Lemma lower_char_colon : forall c, lower_char c = ":"%char -> c = ":"%char.
Proof.
  intros c H. destruct (Nat.lt_ge_cases (nat_of_ascii c) 65) as [Hc|Hc].
  - rewrite lower_char_fixed in H by lia. exact H.
  - destruct (Nat.lt_ge_cases 90 (nat_of_ascii c)) as [Hd|Hd].
    + rewrite lower_char_fixed in H by lia. exact H.
    + exfalso. unfold lower_char in H.
      replace (Nat.leb 65 (nat_of_ascii c) && Nat.leb (nat_of_ascii c) 90) with true in H
        by (symmetry; apply andb_true_iff; split; apply Nat.leb_le; lia).
      apply (f_equal nat_of_ascii) in H. rewrite nat_ascii_embedding in H by lia.
      change (nat_of_ascii ":"%char) with 58 in H. lia.
Qed.

Lemma contains_colon_lower : forall ln,
  contains (String ":" EmptyString) (lower ln) = true ->
  contains (String ":" EmptyString) ln = true.
Proof.
  intro ln. rewrite !contains_iff. revert ln.
  induction ln as [|a ln IH]; intros (pre & post & H); simpl in H.
  - destruct pre; discriminate.
  - destruct pre as [|c pre]; simpl in H.
    + injection H as Ha Hp. exists EmptyString, ln. apply lower_char_colon in Ha.
      rewrite Ha. reflexivity.
    + injection H as _ H. destruct (IH (ex_intro _ pre (ex_intro _ post H))) as (pre' & post' & H').
      exists (String a pre'), post'. rewrite H'. reflexivity.
Qed.

Lemma str_app_assoc : forall a b c : string, (a ++ b) ++ c = a ++ (b ++ c).
Proof. induction a as [|x a IH]; intros b c; simpl; [reflexivity | rewrite IH; reflexivity]. Qed.

(** A line carrying the token "decision:" or "explanation:" has a colon. *)
Lemma tok_colon : forall tok ln, tok = tok_decision \/ tok = tok_explanation ->
  has_tok tok ln = true -> contains (String ":" EmptyString) ln = true.
Proof.
  intros tok ln Htok H. apply contains_colon_lower. unfold has_tok in H.
  apply contains_iff in H as (pre & post & H). apply contains_iff.
  destruct Htok as [->| ->].
  - exists (pre ++ "decision"), post. rewrite H, str_app_assoc. reflexivity.
  - exists (pre ++ "explanation"), post. rewrite H, str_app_assoc. reflexivity.
Qed.

Lemma after_colon_some : forall ln,
  contains (String ":" EmptyString) ln = true -> exists a, after_colon ln = Some a.
Proof.
  intro ln. unfold after_colon.
  assert (forall ln, contains (String ":" EmptyString) ln = true ->
                     exists b a, split_once ":"%char ln = Some (b, a)).
  { induction ln0 as [|c r IH]; intro H; [simpl in H; discriminate|].
    cbn [contains prefix] in H. cbn [split_once].
    destruct (Ascii.eqb c ":") eqn:E; [eexists; eexists; reflexivity|].
    destruct (ascii_dec ":" c) as [Hc|Hc].
    - subst c. rewrite Ascii.eqb_refl in E. discriminate.
    - rewrite orb_false_l in H. destruct (IH H) as (b & a & ->).
      eexists; eexists; reflexivity. }
  intro Hc. destruct (H ln Hc) as (b & a & ->). eexists. reflexivity.
Qed.

Lemma scan_total : forall ls d v e,
  (forall ln, In ln ls -> has_tok tok_violation ln = true ->
              contains (String ":" EmptyString) ln = true) ->
  exists d' v' e', scan ls d v e = Some (d', v', e').
Proof.
  induction ls as [|ln ls IH]; intros d v e H; simpl; [eauto|].
  assert (H' : forall l, In l ls -> has_tok tok_violation l = true ->
                 contains (String ":" EmptyString) l = true) by (intros; apply H; simpl; auto).
  destruct (has_tok tok_decision ln && (d =? EmptyString)) eqn:E1.
  - apply andb_true_iff in E1 as [E1 _].
    destruct (after_colon_some ln (tok_colon _ _ (or_introl eq_refl) E1)) as [a ->]. auto.
  - destruct (has_tok tok_violation ln && (v =? EmptyString)) eqn:E2.
    + apply andb_true_iff in E2 as [E2 _].
      destruct (after_colon_some ln (H ln (or_introl eq_refl) E2)) as [a ->]. auto.
    + destruct (has_tok tok_explanation ln && (e =? EmptyString)) eqn:E3.
      * apply andb_true_iff in E3 as [E3 _].
        destruct (after_colon_some ln (tok_colon _ _ (or_intror eq_refl) E3)) as [a ->]. auto.
      * auto.
Qed.

Lemma scan_no_tokens : forall ls d v e,
  (forall ln, In ln ls -> has_tok tok_decision ln = false /\ has_tok tok_violation ln = false /\
                          has_tok tok_explanation ln = false) ->
  scan ls d v e = Some (d, v, e).
Proof.
  induction ls as [|ln ls IH]; intros d v e H; simpl; [reflexivity|].
  destruct (H ln (or_introl eq_refl)) as (-> & -> & ->). simpl.
  apply IH. intros; apply H; simpl; auto.
Qed.

(** [_normalize] *)
Lemma remove_chars_in : forall bad s c,
  In c (list_ascii_of_string (remove_chars bad s)) ->
  bad c = false /\ In c (list_ascii_of_string s).
Proof.
  induction s as [|a s IH]; intros c H; simpl in *; [contradiction|].
  destruct (bad a) eqn:E.
  - destruct (IH _ H). auto.
  - destruct H as [<-|H]; [auto|]. destruct (IH _ H). auto.
Qed.

Lemma lower_in : forall s c, In c (list_ascii_of_string (lower s)) ->
  exists c0, c = lower_char c0.
Proof.
  induction s as [|a s IH]; intros c H; simpl in H; [contradiction|].
  destruct H as [<-|H]; [eauto | exact (IH _ H)].
Qed.

(** Quote stripping. *)
Lemma rstrip_snoc : forall s c, is_space c = false ->
  rstrip (s ++ String c EmptyString) = s ++ String c EmptyString.
Proof.
  induction s as [|a s IH]; intros c Hc; simpl.
  - rewrite Hc. reflexivity.
  - rewrite IH by exact Hc. destruct s; reflexivity.
Qed.

Lemma rstrip_char_snoc_same : forall ch s,
  rstrip_char ch (s ++ String ch EmptyString) = rstrip_char ch s.
Proof.
  induction s as [|a s IH]; simpl.
  - rewrite Ascii.eqb_refl. reflexivity.
  - rewrite IH. reflexivity.
Qed.

Lemma rstrip_char_snoc_other : forall ch s c, c <> ch ->
  rstrip_char ch (s ++ String c EmptyString) = s ++ String c EmptyString.
Proof.
  induction s as [|a s IH]; intros c Hc; simpl.
  - apply Ascii.eqb_neq in Hc. rewrite Hc. reflexivity.
  - rewrite IH by exact Hc. destruct s; reflexivity.
Qed.

End StrFacts.

Module GuessFacts.
Import Py Csv.

Lemma get_set_str : forall (m : list (string * string)) n k v,
  Dict.get String.eqb n (Dict.set String.eqb k v m)
  = if n =? k then Some v else Dict.get String.eqb n m.
Proof.
  induction m as [|[k' v'] r IH]; intros n k v; simpl; [reflexivity|].
  destruct (k =? k') eqn:Ek; simpl.
  - apply String.eqb_eq in Ek. subst k'. destruct (n =? k); reflexivity.
  - rewrite IH. destruct (n =? k') eqn:En; [|reflexivity].
    apply String.eqb_eq in En. subst n.
    destruct (k' =? k) eqn:E'; [|reflexivity].
    apply String.eqb_eq in E'. subst. rewrite String.eqb_refl in Ek. discriminate.
Qed.

Lemma norm_map_snoc : forall hs h,
  norm_map (hs ++ [h]) = Dict.set String.eqb (_normalize h) h (norm_map hs).
Proof. intros hs h. unfold norm_map. rewrite fold_left_app. reflexivity. Qed.

Lemma norm_map_none : forall hs n,
  Dict.get String.eqb n (norm_map hs) = None <-> Forall (fun h => _normalize h <> n) hs.
Proof.
  induction hs as [|x hs IH] using rev_ind; intros n.
  - split; intros _; [constructor | reflexivity].
  - rewrite norm_map_snoc, get_set_str, Forall_app.
    destruct (n =? _normalize x) eqn:E.
    + apply String.eqb_eq in E. split; [discriminate|].
      intros [_ Hx]. inversion Hx as [|? ? Hx' _]. congruence.
    + apply String.eqb_neq in E. rewrite IH. split.
      * intros H. split; [exact H | constructor; [congruence | constructor]].
      * intros [H _]. exact H.
Qed.

(** [norm_map[n]] is the last header whose normalized name is [n]. *)
Lemma norm_map_some : forall hs n h,
  Dict.get String.eqb n (norm_map hs) = Some h <->
  exists pre post, hs = (pre ++ h :: post)%list /\ _normalize h = n /\
                   Forall (fun h' => _normalize h' <> n) post.
Proof.
  induction hs as [|x hs IH] using rev_ind; intros n h.
  - split; [discriminate|]. intros (pre & post & H & _). destruct pre; discriminate.
  - rewrite norm_map_snoc, get_set_str.
    destruct (n =? _normalize x) eqn:E.
    + apply String.eqb_eq in E. split.
      * intros H. injection H as <-. exists hs, []. repeat split; [congruence | constructor].
      * intros (pre & post & Hs & Hn & Hp).
        destruct post as [|p post'] using rev_ind.
        -- apply app_inj_tail in Hs as [_ ->]. reflexivity.
        -- exfalso. clear IHpost'.
           rewrite app_comm_cons, app_assoc in Hs. apply app_inj_tail in Hs as [_ ->].
           apply Forall_app in Hp as [_ Hp]. inversion Hp. congruence.
    + apply String.eqb_neq in E. rewrite IH. split.
      * intros (pre & post & Hs & Hn & Hp). exists pre, (post ++ [x])%list.
        rewrite Hs, <- app_assoc. split; [reflexivity|]. split; [exact Hn|].
        apply Forall_app. split; [exact Hp | constructor; [congruence | constructor]].
      * intros (pre & post & Hs & Hn & Hp).
        destruct post as [|p post'] using rev_ind.
        -- apply app_inj_tail in Hs as [_ ->]. congruence.
        -- clear IHpost'. rewrite app_comm_cons, app_assoc in Hs.
           apply app_inj_tail in Hs as [Hs ->]. exists pre, post'.
           split; [exact Hs|]. split; [exact Hn|]. apply Forall_app in Hp. tauto.
Qed.

Lemma first_found_some : forall m cands h,
  first_found m cands = Some h <->
  exists pre c post, cands = (pre ++ c :: post)%list /\
    Forall (fun c' => Dict.get String.eqb c' m = None) pre /\
    Dict.get String.eqb c m = Some h.
Proof.
  intros m cands h. induction cands as [|c cands IH]; simpl.
  - split; [discriminate|]. intros (pre & c & post & H & _). destruct pre; discriminate.
  - destruct (Dict.get String.eqb c m) as [h0|] eqn:E.
    + split.
      * intros H. injection H as <-. exists [], c, cands.
        split; [reflexivity | split; [constructor | exact E]].
      * intros (pre & c' & post & Hc & Hp & Hg). destruct pre as [|p pre].
        -- injection Hc as <- _. congruence.
        -- injection Hc as <- _. inversion Hp. congruence.
    + rewrite IH. split.
      * intros (pre & c' & post & Hc & Hp & Hg). exists (c :: pre), c', post.
        rewrite Hc. split; [reflexivity | split; [constructor; assumption | exact Hg]].
      * intros (pre & c' & post & Hc & Hp & Hg). destruct pre as [|p pre].
        -- injection Hc as <- _. congruence.
        -- injection Hc as <- Hc. inversion Hp; subst. exists pre, c', post.
           repeat split; assumption.
Qed.

Lemma first_found_none : forall m cands,
  first_found m cands = None <-> Forall (fun c => Dict.get String.eqb c m = None) cands.
Proof.
  intros m cands. induction cands as [|c cands IH]; simpl.
  - split; intros _; [constructor | reflexivity].
  - destruct (Dict.get String.eqb c m) eqn:E.
    + split; [discriminate | intros H; inversion H; congruence].
    + rewrite IH. split; [intros H; constructor; assumption | intros H; inversion H; assumption].
Qed.

(** What [next((norm_map[n] for n in cands if n in norm_map), None)]
    selects, read on the header list. *)
Lemma choose_iff : forall headers cands h,
  first_found (norm_map headers) cands = Some h <->
  exists pre c post hpre hpost,
    cands = (pre ++ c :: post)%list /\
    (forall c', In c' pre -> forall h', In h' headers -> _normalize h' <> c') /\
    headers = (hpre ++ h :: hpost)%list /\ _normalize h = c /\
    (forall h', In h' hpost -> _normalize h' <> c).
Proof.
  intros headers cands h. rewrite first_found_some. split.
  - intros (pre & c & post & Hc & Hp & Hg). apply norm_map_some in Hg as (hpre & hpost & Hh & Hn & Hq).
    exists pre, c, post, hpre, hpost. repeat split; try assumption.
    + intros c' Hc' h' Hh'. rewrite Forall_forall in Hp. specialize (Hp c' Hc').
      rewrite norm_map_none, Forall_forall in Hp. exact (Hp h' Hh').
    + rewrite Forall_forall in Hq. exact Hq.
  - intros (pre & c & post & hpre & hpost & Hc & Hp & Hh & Hn & Hq).
    exists pre, c, post. split; [exact Hc|]. split.
    + apply Forall_forall. intros c' Hc'. apply norm_map_none, Forall_forall. exact (Hp c' Hc').
    + apply norm_map_some. exists hpre, hpost. repeat split; try assumption.
      apply Forall_forall. exact Hq.
Qed.

Lemma choose_none : forall headers cands,
  first_found (norm_map headers) cands = None <->
  (forall h, In h headers -> ~ In (_normalize h) cands).
Proof.
  intros headers cands. rewrite first_found_none, Forall_forall. split.
  - intros H h Hh Hin. specialize (H _ Hin). rewrite norm_map_none, Forall_forall in H.
    exact (H h Hh eq_refl).
  - intros H c Hc. apply norm_map_none, Forall_forall. intros h Hh Heq.
    subst c. exact (H h Hh Hc).
Qed.

(** A guessed column is never the empty string. *)
Lemma guessed_nonempty : forall headers cands h,
  ~ In EmptyString cands -> first_found (norm_map headers) cands = Some h -> h <> EmptyString.
Proof.
  intros headers cands h Hc H Hh. subst h.
  apply choose_iff in H as (pre & c & post & hpre & hpost & Hcands & _ & _ & Hn & _).
  vm_compute in Hn. subst c. apply Hc. rewrite Hcands.
  apply in_or_app. right. left. reflexivity.
Qed.

End GuessFacts.

Module CsvFacts2.
Import Py Parse Csv Trace RowFacts.

(** Every record a run that returns has written, with the values that
    went into its three result columns. *)
Lemma write_rows_lines : forall model hs oh loc rev rows evs lines,
  write_rows model hs oh loc rev rows = (evs, lines, None) ->
  Forall2 (fun raw line =>
    exists l r d v e,
      get_or_empty (read_row hs raw) loc = Some l /\
      get_or_empty (read_row hs raw) rev = Some r /\
      (if strip r =? EmptyString then (d, v, e) = (EmptyString, EmptyString, EmptyString)
       else _parse_model_output (model (strip (strip l)) (strip (strip r))) = Some (d, v, e)) /\
      writerow oh (set_result (read_row hs raw) d v e) = Some line)
    (filter nonempty_record rows) lines.
Proof.
  induction rows as [|raw rest IH]; intros evs lines H; simpl in H.
  - injection H as <- <-. constructor.
  - destruct raw as [|c cs].
    + exact (IH _ _ H).
    + simpl.
      destruct (get_or_empty (read_row hs (c :: cs)) loc) as [l|] eqn:El; [|discriminate H].
      destruct (get_or_empty (read_row hs (c :: cs)) rev) as [r|] eqn:Er; [|discriminate H].
      destruct (strip r =? EmptyString) eqn:Eb.
      * destruct (writerow oh (set_result (read_row hs (c :: cs)) "" "" "")) as [line|] eqn:Ew;
          [|discriminate H].
        destruct (write_rows model hs oh loc rev rest) as [[evs' lines'] exn] eqn:Ewr.
        injection H as <- <- ->. constructor; [|exact (IH _ _ eq_refl)].
        exists l, r, EmptyString, EmptyString, EmptyString. rewrite Eb.
        repeat split; assumption.
      * unfold evaluate in H. simpl in H.
        match type of H with
        | context [match _parse_model_output ?x with _ => _ end] =>
            destruct (_parse_model_output x) as [[[d v] e]|] eqn:Ep; [|discriminate H]
        end.
        destruct (writerow oh (set_result (read_row hs (c :: cs)) d v e)) as [line|] eqn:Ew;
          [|discriminate H].
        destruct (write_rows model hs oh loc rev rest) as [[evs' lines'] exn] eqn:Ewr.
        injection H as <- <- ->. constructor; [|exact (IH _ _ eq_refl)].
        exists l, r, d, v, e. rewrite Eb. repeat split; assumption.
Qed.

(** The loop over the records only ever calls the model. *)
Lemma write_rows_events : forall model hs oh loc rev rows,
  Forall (fun e => exists l r, e = EInvoke l r) (fst (fst (write_rows model hs oh loc rev rows))).
Proof.
  induction rows as [|raw rest IH]; simpl; [constructor|].
  destruct raw as [|c cs]; [exact IH|].
  destruct (get_or_empty (read_row hs (c :: cs)) loc) as [l|]; [|constructor].
  destruct (get_or_empty (read_row hs (c :: cs)) rev) as [r|]; [|constructor].
  destruct (write_rows model hs oh loc rev rest) as [[evs' lines'] exn]. simpl in IH.
  destruct (strip r =? EmptyString).
  - destruct (writerow oh _); simpl; [exact IH | constructor].
  - unfold evaluate. simpl.
    destruct (_parse_model_output _) as [[[d v] e]|]; simpl.
    + destruct (writerow oh _); simpl; constructor; eauto.
    + constructor; eauto.
Qed.

(** [sys.exit] is reached only before the loop over the records. *)
Lemma process_csv_exit : forall model file answers path code,
  r_outcome (process_csv model file answers path) = Exit code ->
  code = 1 /\ r_file (process_csv model file answers path) = None /\
  Forall is_prompt (r_events (process_csv model file answers path)).
Proof.
  intros model file answers path code H. unfold process_csv in *.
  destruct file as [[|hs rows]|].
  - simpl in H. injection H as <-. simpl. repeat split; constructor.
  - destruct hs as [|h t].
    + simpl in H. injection H as <-. simpl. repeat split; constructor.
    + destruct (_guess_columns (h :: t)) as [gl gr].
      destruct (py_not gl || py_not gr) eqn:Eg.
      * destruct answers as [|a1 [|a2 more]]; try discriminate.
        destruct (negb (py_in (strip a1) (h :: t)) || negb (py_in (strip a2) (h :: t))).
        -- simpl in H. injection H as <-. simpl. repeat split; repeat constructor.
        -- destruct (write_rows model (h :: t) ((h :: t) ++ appended_columns)%list
                       (strip a1) (strip a2) rows) as [[evs lines] [x|]]; discriminate.
      * destruct (write_rows model (h :: t) ((h :: t) ++ appended_columns)%list
                    (match gl with Some l => l | None => EmptyString end)
                    (match gr with Some r => r | None => EmptyString end) rows)
          as [[evs lines] [x|]]; discriminate.
  - simpl in H. injection H as <-. simpl. repeat split; constructor.
Qed.

(** The written values of the three result columns, for any record. *)
Lemma row_result_columns : forall hs d dec vio expl line,
  writerow (hs ++ appended_columns)%list (set_result d dec vio expl) = Some line ->
  length line = length hs + 3 /\ skipn (length hs) line = [dec; vio; expl].
Proof.
  intros hs d dec vio expl line Hw. unfold writerow in Hw.
  destruct (forallb _ _); [|discriminate]. injection Hw as <-.
  rewrite length_map, length_app. split; [reflexivity|].
  rewrite map_app, skipn_app, length_map, Nat.sub_diag, skipn_all2 by (rewrite length_map; lia).
  simpl. unfold set_result.
  rewrite get_set_other by discriminate. rewrite get_set_other by discriminate.
  rewrite get_set_same.
  rewrite get_set_other by discriminate. rewrite get_set_same.
  rewrite get_set_same. reflexivity.
Qed.

(** A record no longer than a header of distinct names, none of them a
    result column, keeps its values in the written line. *)
Lemma row_values_kept : forall hs raw dec vio expl line,
  NoDup hs -> (forall h, In h hs -> ~ In h appended_columns) ->
  length raw <= length hs ->
  writerow (hs ++ appended_columns)%list (set_result (read_row hs raw) dec vio expl) = Some line ->
  forall i, i < length hs -> nth i line EmptyString = nth i raw EmptyString.
Proof.
  intros hs raw dec vio expl line Hnd Hdis Hl Hw.
  rewrite read_row_dict in Hw by assumption.
  assert (Hfresh : forall a, In a appended_columns -> ~ In (Some a) (map Some hs)).
  { intros a Ha Hin. apply in_map_iff in Hin as (h & Hh & Hin). injection Hh as ->.
    exact (Hdis _ Hin Ha). }
  unfold set_result in Hw.
  rewrite (set_fresh (reader_dict hs raw) (Some "Decision")) in Hw
    by (rewrite reader_dict_keys by lia; apply Hfresh; simpl; tauto).
  rewrite (set_fresh (reader_dict hs raw ++ [(Some "Decision", VStr dec)])%list
             (Some "Primary Violation")) in Hw.
  2:{ rewrite map_app, reader_dict_keys by lia. simpl. rewrite in_app_iff. simpl.
      intros [H|[H|H]]; [revert H; apply Hfresh; simpl; tauto | discriminate | exact H]. }
  rewrite (set_fresh ((reader_dict hs raw ++ [(Some "Decision", VStr dec)]) ++
                       [(Some "Primary Violation", VStr vio)])%list (Some "Explanation")) in Hw.
  2:{ rewrite !map_app, reader_dict_keys by lia. simpl. rewrite !in_app_iff. simpl.
      intros [[H|[H|H]]|[H|H]];
        [revert H; apply Hfresh; simpl; tauto | discriminate | exact H | discriminate | exact H]. }
  set (D := (((reader_dict hs raw ++ [(Some "Decision", VStr dec)]) ++
              [(Some "Primary Violation", VStr vio)]) ++ [(Some "Explanation", VStr expl)])%list) in Hw.
  assert (HkD : map fst D = map Some (hs ++ appended_columns)).
  { unfold D. rewrite !map_app, reader_dict_keys by lia. rewrite <- !app_assoc. reflexivity. }
  assert (HndD : NoDup (map fst D)).
  { rewrite HkD. apply nodup_map_some. apply NoDup_app; [exact Hnd | |].
    - repeat constructor; simpl; intuition discriminate.
    - intros a Ha1 Ha2. exact (Hdis a Ha1 Ha2). }
  unfold writerow in Hw.
  destruct (forallb _ D) eqn:Hall; [|discriminate]. injection Hw as <-.
  set (F := fun k : string => match Dict.get key_eqb (Some k) D with
                              | Some v => render v | None => EmptyString end).
  change (forall i, i < length hs -> nth i (map F (hs ++ appended_columns)) EmptyString
                                     = nth i raw EmptyString).
  assert (HD : forall k v, In (k, v) D -> Dict.get key_eqb k D = Some v)
    by (intros; apply get_nodup_in; assumption).
  intros i Hi. rewrite nth_indep with (d' := F EmptyString) by (rewrite length_map, length_app; lia).
  rewrite map_nth, app_nth1 by exact Hi. unfold F.
  destruct (Nat.lt_ge_cases i (length raw)) as [Hr|Hr].
  - rewrite (HD _ (VStr (nth i raw EmptyString))); [reflexivity|].
    unfold D, reader_dict. rewrite !in_app_iff. do 3 left. left.
    apply (in_map (fun p => (Some (fst p), VStr (snd p))) _ (_, _)).
    apply in_combine_nth; assumption.
  - rewrite (HD _ VNone).
    + rewrite nth_overflow by exact Hr. reflexivity.
    + unfold D, reader_dict. rewrite !in_app_iff. do 3 left. right.
      apply (in_map (fun h => (Some h, VNone))). apply in_skipn_nth; assumption.
Qed.

End CsvFacts2.

Module FrameFacts2.
Import Py Frame FrameFacts.

Lemma cell_eqb_refl : forall c, cell_eqb c c = true.
Proof.
  intros [[q| |]|s|]; simpl; try reflexivity.
  - apply Qeq_bool_iff. reflexivity.
  - apply String.eqb_refl.
Qed.

Lemma row_eqb_refl : forall r, row_eqb r r = true.
Proof.
  intros [a b l]. unfold row_eqb. simpl. rewrite !cell_eqb_refl, Nat.eqb_refl. simpl.
  induction l as [|c l IH]; simpl; [reflexivity|]. rewrite cell_eqb_refl. exact IH.
Qed.

(** A row kept by [drop_duplicates] equals no row kept or seen before it. *)
Lemma drop_dup_from_distinct : forall df seen pre r post,
  drop_duplicates_from seen df = (pre ++ r :: post)%list ->
  forall r', In r' (pre ++ seen) -> row_eqb r r' = false.
Proof.
  induction df as [|r0 rest IH]; intros seen pre r post H r' Hr'; simpl in H.
  - destruct pre; discriminate.
  - destruct (existsb (row_eqb r0) seen) eqn:E.
    + exact (IH _ _ _ _ H r' Hr').
    + destruct pre as [|p pre].
      * injection H as <- _. simpl in Hr'.
        destruct (row_eqb r0 r') eqn:E'; [|reflexivity].
        assert (existsb (row_eqb r0) seen = true) by (apply existsb_exists; eauto).
        congruence.
      * injection H as <- H. apply (IH _ _ _ _ H). simpl in Hr'.
        apply in_app_iff. simpl. rewrite in_app_iff in Hr'. tauto.
Qed.

(** Every row dropped has an equal row kept (or seen). *)
Lemma drop_dup_from_covers : forall df seen r, In r df ->
  (exists r', In r' seen /\ row_eqb r r' = true) \/
  (exists r', In r' (drop_duplicates_from seen df) /\ row_eqb r r' = true).
Proof.
  induction df as [|r0 rest IH]; intros seen r H; simpl in *; [contradiction|].
  destruct (existsb (row_eqb r0) seen) eqn:E.
  - destruct H as [<-|H].
    + left. apply existsb_exists in E. exact E.
    + exact (IH _ _ H).
  - destruct H as [<-|H].
    + right. exists r0. split; [left; reflexivity | apply row_eqb_refl].
    + destruct (IH (r0 :: seen) r H) as [(r' & [<-|Hin] & Hq)|(r' & Hin & Hq)].
      * right. exists r0. split; [left; reflexivity | exact Hq].
      * left. eauto.
      * right. exists r'. split; [right; exact Hin | exact Hq].
Qed.





Lemma clip05_in_range : forall q, (0 <= q <= 5)%Q -> clip05 (XFin q) = XFin q.
Proof.
  intros q [H0 H5]. simpl.
  apply Qle_bool_iff in H0, H5. rewrite H0, H5. reflexivity.
Qed.

End FrameFacts2.

Module MainFacts.
Import Py Frame Main.

(** The call of main.py line 115 never reaches the model: [{location}] is
    not among its keys. *)
Lemma invoke_review_raises : forall x, invoke_review x = TRaise "KeyError".
Proof. intro x. reflexivity. Qed.

Lemma main_turn_cases : forall pn ns load m l,
  main_turn pn ns load m l = TBreak \/ exists e, main_turn pn ns load m l = TRaise e.
Proof.
  intros pn ns load m l. unfold main_turn.
  destruct (lower (strip m) =? "quit"); [right; eexists; apply invoke_review_raises|].
  destruct (lower (strip m) =? "individual").
  { destruct (lower (strip l) =? "quit"); [left; reflexivity|].
    right; eexists; apply invoke_review_raises. }
  destruct (lower (strip m) =? "file"); [|right; eexists; apply invoke_review_raises].
  destruct (lower (strip l) =? "quit"); [left; reflexivity|].
  destruct (read_file (strip l)) as [[rd fn]|msg]; [|right; eexists; reflexivity].
  destruct (load rd fn) as [df|]; [|right; eexists; reflexivity].
  destruct (clean_dataframe pn ns df) as [cdf|]; [|right; eexists; reflexivity].
  right. eexists. destruct (Nat.ltb 0 (length cdf)); apply invoke_review_raises.
Qed.

End MainFacts.

Module Claims.
Import Py Parse Csv Frame Main Score Trace Samples ParseFacts.


(** Claim C1 (code defect): a model answer whose violation line has no
    colon, such as ["Primary Violation - No Advertisement"], makes
    [_parse_model_output] raise [IndexError] (here [None]) instead of
    returning three strings. *)
Theorem parse_model_output_raises_without_colon :
  _parse_model_output ("Decision: Flagged" ++ nl ++ "Primary Violation - No Advertisement"
                       ++ nl ++ "Explanation: promo link") = None.
Proof. vm_compute. reflexivity. Qed.

(** Claim C2, as stated, fails: a line containing "explanation:" need not
    give the Explanation field, because the same line also contains
    "decision:" and fills the Decision field instead. *)
Lemma parse_matching_line_not_used :
  ~ (forall s d v e ln,
       _parse_model_output s = Some (d, v, e) ->
       In ln (py_lines s) -> has_tok tok_explanation ln = true ->
       exists ln', In ln' (py_lines s) /\ has_tok tok_explanation ln' = true /\
                   after_colon ln' = Some e).
Proof.
  intro H.
  destruct (H "Decision: Valid. Explanation: fine" "Valid. Explanation: fine" "" ""
              "Decision: Valid. Explanation: fine") as (l & Hin & _ & Ha).
  - vm_compute. reflexivity.
  - vm_compute. left. reflexivity.
  - vm_compute. reflexivity.
  - vm_compute in Hin. destruct Hin as [<- | []]. vm_compute in Ha. discriminate.
Qed.

(** Claim C2 (amended): the parser scans the stripped non-blank lines in
    order; a line fills only the first still-empty field, in the order
    Decision, Primary Violation, Explanation, whose token it contains
    (case-insensitively), with the trimmed text after its first colon.
    Hence, when the parser returns, every non-empty field is that text for
    some line carrying the field's token, and a field whose token occurs on
    exactly one line, that line carrying no token of an earlier field, is
    that line's text. *)
Theorem parse_model_output_fields : forall s d v e,
  _parse_model_output s = Some (d, v, e) ->
  (d <> EmptyString -> exists ln, In ln (py_lines s) /\
      has_tok tok_decision ln = true /\ after_colon ln = Some d) /\
  (v <> EmptyString -> exists ln, In ln (py_lines s) /\
      has_tok tok_violation ln = true /\ after_colon ln = Some v) /\
  (e <> EmptyString -> exists ln, In ln (py_lines s) /\
      has_tok tok_explanation ln = true /\ after_colon ln = Some e) /\
  (forall L, filter (has_tok tok_decision) (py_lines s) = [L] ->
      after_colon L = Some d) /\
  (forall L, filter (has_tok tok_violation) (py_lines s) = [L] ->
      has_tok tok_decision L = false -> after_colon L = Some v) /\
  (forall L, filter (has_tok tok_explanation) (py_lines s) = [L] ->
      has_tok tok_decision L = false -> has_tok tok_violation L = false ->
      after_colon L = Some e).
Proof.
  intros s d v e H. unfold _parse_model_output in H.
  pose proof (scan_sound _ _ _ _ _ _ _ H) as (Hd & Hv & He).
  repeat split.
  - intro Hne. destruct Hd as [-> | Hx]; [contradiction | exact Hx].
  - intro Hne. destruct Hv as [-> | Hx]; [contradiction | exact Hx].
  - intro Hne. destruct He as [-> | Hx]; [contradiction | exact Hx].
  - intros L HL. eapply scan_unique_decision; eauto.
  - intros L HL H1. eapply scan_unique_violation; eauto.
  - intros L HL H1 H2. eapply scan_unique_explanation; eauto.
Qed.

Lemma parse_model_output_fields_witness :
  _parse_model_output sample_output = Some ("Flagged", "No Advertisement", "Contains a promotional link.") /\
  after_colon "Explanation: Contains a promotional link." = Some "Contains a promotional link.".
Proof.
  assert (H : _parse_model_output sample_output =
              Some ("Flagged", "No Advertisement", "Contains a promotional link."))
    by (vm_compute; reflexivity).
  split; [exact H|].
  destruct (parse_model_output_fields _ _ _ _ H) as (_ & _ & _ & _ & _ & He).
  apply He; vm_compute; reflexivity.
Defined.

Lemma prefix_flag_not_valid : forall t,
  prefix "flag" t = true -> prefix "valid" t = false.
Proof.
  intros [|[[] [] [] [] [] [] [] []] r] H; vm_compute in H |- *;
    try discriminate H; reflexivity.
Qed.

(** Claim C4 (spec-modelled): a decision whose normalized text starts with
    "valid" canonicalizes to "Valid", one starting with "flag" to
    "Flagged", whatever the decision table. *)
Theorem canonicalize_decision_prefixes : forall decision_table s,
  (prefix "valid" (normalize_label s) = true ->
     canonicalize_decision decision_table s = "Valid") /\
  (prefix "flag" (normalize_label s) = true ->
     canonicalize_decision decision_table s = "Flagged").
Proof.
  intros tbl s. unfold canonicalize_decision. split; intro H.
  - rewrite H. reflexivity.
  - rewrite (prefix_flag_not_valid _ H), H. reflexivity.
Qed.

Lemma canonicalize_decision_prefixes_witness :
  canonicalize_decision [] ("  VALID " ++ nl ++ " review") = "Valid" /\
  canonicalize_decision [("ok", "Valid")] " Flag" = "Flagged".
Proof.
  split.
  - apply (proj1 (canonicalize_decision_prefixes [] _)). vm_compute. reflexivity.
  - apply (proj2 (canonicalize_decision_prefixes _ _)). vm_compute. reflexivity.
Defined.

(** Claim C9: [read_file] takes the lowercased text after the last dot as
    the format; it dispatches csv, the five spreadsheet formats, json and
    xml to their pandas readers and rejects any other format with a
    [ValueError] whose message names it. *)
Theorem read_file_dispatch : forall file_name fmt,
  fmt = lower (last_field "."%char file_name) ->
  (fmt = "csv" -> read_file file_name = inl (ReadCsv, file_name)) /\
  (In fmt ["xls"; "xlsx"; "xlsm"; "xlsb"; "ods"] ->
     read_file file_name = inl (ReadExcel, file_name)) /\
  (fmt = "json" -> read_file file_name = inl (ReadJson, file_name)) /\
  (fmt = "xml" -> read_file file_name = inl (ReadXml, file_name)) /\
  (~ In fmt ["csv"; "xls"; "xlsx"; "xlsm"; "xlsb"; "ods"; "json"; "xml"] ->
     read_file file_name = inr ("Unsupported file format: " ++ fmt)).
Proof.
  intros name fmt Hf. unfold read_file. rewrite <- Hf. clear Hf.
  repeat split.
  - intros ->. reflexivity.
  - intros Hin. simpl in Hin.
    destruct Hin as [<-|[<-|[<-|[<-|[<-|[]]]]]]; reflexivity.
  - intros ->. reflexivity.
  - intros ->. reflexivity.
  - intros Hn.
    destruct (fmt =? "csv") eqn:E1.
    { apply String.eqb_eq in E1. subst. exfalso. apply Hn. simpl. tauto. }
    destruct (existsb (String.eqb fmt) ["xls"; "xlsx"; "xlsm"; "xlsb"; "ods"]) eqn:E2.
    { apply existsb_exists in E2. destruct E2 as (x & Hx & Heq).
      apply String.eqb_eq in Heq. subst. exfalso. apply Hn. simpl in Hx |- *. tauto. }
    destruct (fmt =? "json") eqn:E3.
    { apply String.eqb_eq in E3. subst. exfalso. apply Hn. simpl. tauto. }
    destruct (fmt =? "xml") eqn:E4.
    { apply String.eqb_eq in E4. subst. exfalso. apply Hn. simpl. tauto. }
    reflexivity.
Qed.

Lemma read_file_dispatch_witness :
  read_file "reviews.backup.TXT" = inr "Unsupported file format: txt" /\
  read_file "Data.XLSX" = inl (ReadExcel, "Data.XLSX").
Proof.
  split.
  - apply (read_file_dispatch "reviews.backup.TXT" "txt"); [vm_compute; reflexivity|].
    simpl. intuition discriminate.
  - apply (read_file_dispatch "Data.XLSX" "xlsx"); [vm_compute; reflexivity|].
    simpl. tauto.
Defined.

Lemma py_in_iff : forall x xs, py_in x xs = true <-> In x xs.
Proof.
  intros x xs. unfold py_in. rewrite existsb_exists. split.
  - intros (y & Hy & E). apply String.eqb_eq in E. subst. exact Hy.
  - intros H. exists x. split; [exact H | apply String.eqb_refl].
Qed.

(** Claim C7: when [process_csv] returns, the output CSV's header is the
    input header followed by Decision, Primary Violation, Explanation, and
    its path is the input path cut by [os.path.splitext] into a base and an
    extension (empty, or a dot followed by text without dots or slashes),
    with "_evaluated" between the two. *)
Theorem process_csv_output_file : forall model file answers path out,
  r_outcome (process_csv model file answers path) = Return out ->
  exists headers rows base ext f,
    file = Some (headers :: rows) /\
    r_file (process_csv model file answers path) = Some f /\
    of_header f = (headers ++ ["Decision"; "Primary Violation"; "Explanation"])%list /\
    of_path f = out /\
    splitext path = (base, ext) /\ path = base ++ ext /\
    out = base ++ "_evaluated" ++ ext /\
    (ext = EmptyString \/ exists r, ext = String "."%char r /\ no_dot_or_slash r).
Proof.
  intros model file answers path out H.
  destruct (CsvFacts.process_csv_return _ _ _ _ _ H)
    as (hs & rows & lc & rc & prompts & evs & lines & Hf & _ & _ & Hout & _ & _ & Hfile).
  destruct (splitext path) as [base ext] eqn:Hs.
  destruct (PathFacts.splitext_shape _ _ _ Hs) as [Hp Hext].
  exists hs, rows, base, ext.
  eexists. repeat split; try eassumption; try reflexivity.
  rewrite Hout. unfold evaluated_path. rewrite Hs. reflexivity.
Qed.

Lemma process_csv_output_file_witness :
  r_outcome (process_csv sample_model (Some sample_file) [] "data/reviews.v2.csv")
    = Return "data/reviews.v2_evaluated.csv" /\
  exists headers rows base ext f,
    Some sample_file = Some (headers :: rows) /\
    r_file (process_csv sample_model (Some sample_file) [] "data/reviews.v2.csv") = Some f /\
    of_header f = (headers ++ ["Decision"; "Primary Violation"; "Explanation"])%list /\
    of_path f = "data/reviews.v2_evaluated.csv" /\
    splitext "data/reviews.v2.csv" = (base, ext) /\ "data/reviews.v2.csv" = base ++ ext /\
    "data/reviews.v2_evaluated.csv" = base ++ "_evaluated" ++ ext /\
    (ext = EmptyString \/ exists r, ext = String "."%char r /\ no_dot_or_slash r).
Proof.
  assert (H : r_outcome (process_csv sample_model (Some sample_file) [] "data/reviews.v2.csv")
              = Return "data/reviews.v2_evaluated.csv") by (vm_compute; reflexivity).
  split; [exact H | exact (process_csv_output_file _ _ _ _ _ H)].
Defined.

(** Claim C8: when the location or review column cannot be guessed from
    the headers, the operator is asked for both names; if a name typed
    (stripped) is not a header, the program exits with status 1 without
    writing any output. *)
Theorem process_csv_unresolved_columns : forall model headers rows a1 a2 more path,
  headers <> [] ->
  (py_not (fst (_guess_columns headers)) || py_not (snd (_guess_columns headers))) = true ->
  (exists rest, r_events (process_csv model (Some (headers :: rows)) (a1 :: a2 :: more) path)
                = EPrompt prompt_location :: EPrompt prompt_review :: rest) /\
  (~ In (strip a1) headers \/ ~ In (strip a2) headers ->
   r_outcome (process_csv model (Some (headers :: rows)) (a1 :: a2 :: more) path) = Exit 1 /\
   r_file (process_csv model (Some (headers :: rows)) (a1 :: a2 :: more) path) = None).
Proof.
  intros model headers rows a1 a2 more path Hne Hg.
  destruct headers as [|h t]; [contradiction|].
  unfold process_csv.
  destruct (_guess_columns (h :: t)) as [gl gr] eqn:Eg. simpl in Hg. rewrite Hg.
  split.
  - destruct (negb (py_in (strip a1) (h :: t)) || negb (py_in (strip a2) (h :: t))) eqn:Ec.
    + eexists. reflexivity.
    + destruct (write_rows model (h :: t) ((h :: t) ++ appended_columns)%list
                  (strip a1) (strip a2) rows) as [[evs lines] exn].
      eexists. reflexivity.
  - intros Hn.
    assert (Ec : (negb (py_in (strip a1) (h :: t)) || negb (py_in (strip a2) (h :: t))) = true).
    { destruct Hn as [Hn|Hn];
        [destruct (py_in (strip a1) (h :: t)) eqn:E | destruct (py_in (strip a2) (h :: t)) eqn:E];
        try (apply py_in_iff in E; contradiction);
        rewrite ?orb_true_r; reflexivity. }
    rewrite Ec. split; reflexivity.
Qed.

Lemma process_csv_unresolved_columns_witness :
  r_outcome (process_csv sample_model (Some [["name"; "notes"]; ["Cafe"; "ok"]])
               ["name"; " Notes "] "in.csv") = Exit 1.
Proof.
  apply (process_csv_unresolved_columns sample_model ["name"; "notes"] [["Cafe"; "ok"]]
           "name" " Notes " [] "in.csv").
  - discriminate.
  - vm_compute. reflexivity.
  - right. vm_compute. intuition discriminate.
Defined.

(** Claim C10 (code defect): a record whose review is blank is meant to be
    written unchanged with empty result columns (test.py line 150), but
    with a trailing comma the record ["Cafe Luna", "", ""] has more fields
    than the header [location, review]; [DictReader] keeps the extra field
    under the key [None], [DictWriter] raises [ValueError] on it, the
    record is not written and the run stops. *)
Lemma blank_review_row_with_extra_field_not_written :
  process_csv sample_model (Some [["location"; "review"]; ["Cafe Luna"; ""; ""]]) [] "in.csv"
  = {| r_events := []; r_outcome := Raise "ValueError";
       r_file := Some {| of_path := "in_evaluated.csv";
                         of_header := ["location"; "review"; "Decision"; "Primary Violation";
                                       "Explanation"];
                         of_rows := [] |} |}.
Proof. vm_compute. reflexivity. Qed.

(** Claim C3, as stated, fails for the classification record: the model
    answers Decision "Valid" with a Primary Violation, and [process_csv]
    writes that violation next to "Valid". *)
Lemma valid_record_keeps_violation :
  process_csv (fun _ _ => "Decision: Valid" ++ nl ++ "Primary Violation: No Advertisement"
                          ++ nl ++ "Explanation: first-hand visit.")
    (Some [["location"; "review"]; ["Cafe Luna"; "Great coffee"]]) [] "in.csv"
  = {| r_events := [EInvoke "Cafe Luna" "Great coffee"]; r_outcome := Return "in_evaluated.csv";
       r_file := Some {| of_path := "in_evaluated.csv";
                         of_header := ["location"; "review"; "Decision"; "Primary Violation";
                                       "Explanation"];
                         of_rows := [["Cafe Luna"; "Great coffee"; "Valid"; "No Advertisement";
                                      "first-hand visit."]] |} |}.
Proof. vm_compute. reflexivity. Qed.

(** Claim C3 (amended; the scoring step is spec-modelled): in scoring,
    whenever a canonical decision is "Valid" the violation compared for it
    is "None", for the prediction and for the ground truth; the driver's
    [evaluate] instead returns the violation the parser read, with no
    override. *)
Theorem valid_forces_none_in_scoring : forall decision_table alias_table r,
  (canonicalize_decision decision_table (pred_decision r) = "Valid" ->
   s_pred_violation (score_row decision_table alias_table r) = "None") /\
  (canonicalize_decision decision_table (gt_decision r) = "Valid" ->
   s_gt_violation (score_row decision_table alias_table r) = "None") /\
  (forall model location review,
     snd (evaluate model location review) =
     match _parse_model_output (model (strip location) (strip review)) with
     | Some (d, v, e) => Some (d, v, e, model (strip location) (strip review))
     | None => None
     end).
Proof.
  intros dt at_ r. repeat split.
  - intro H. simpl. unfold effective_violation. rewrite H. reflexivity.
  - intro H. simpl. unfold effective_violation. rewrite H. reflexivity.
Qed.

Lemma valid_forces_none_in_scoring_witness :
  s_pred_violation (score_row [] [] sample_score) = "None" /\
  s_gt_violation (score_row [] [] sample_score) = "None".
Proof.
  split.
  - apply (proj1 (valid_forces_none_in_scoring [] [] sample_score)). vm_compute. reflexivity.
  - apply (proj1 (proj2 (valid_forces_none_in_scoring [] [] sample_score))).
    vm_compute. reflexivity.
Defined.

(** Claim C6: for every input DataFrame (whatever pandas' number parser
    and printer are), [clean_dataframe] returns a DataFrame.  Each of its
    rows comes from an input row with the same text and other columns,
    whose rating [to_numeric] reads as a number [x] (non-numeric and
    missing ratings are gone).  Its rating is an integer [k] with
    0 <= k <= 5: [k] is 5 when [x] is above 5 or +inf, and 0 when [x] is
    below 0 or -inf.  Its text is present and not blank. *)
Theorem clean_dataframe_ratings_and_text : forall parse_number num_str df,
  exists out, clean_dataframe parse_number num_str df = Some out /\
  forall r, In r out ->
    exists r0 x k,
      In r0 df /\ text r = text r0 /\ others r = others r0 /\
      to_numeric_cell parse_number (rating r0) = CNum x /\
      rating r = CNum (XFin (inject_Z k)) /\ (0 <= k <= 5)%Z /\
      (above_five x -> k = 5%Z) /\ (below_zero x -> k = 0%Z) /\
      text r <> CNA /\ strip (cell_str num_str (text r)) <> EmptyString.
Proof.
  intros pn ns df. unfold clean_dataframe.
  set (df5 := filter (fun r => negb (is_na (rating r)))
                (map (fun r => set_rating r (clip_cell (rating r)))
                   (map (fun r => set_rating r (to_numeric_cell pn (rating r)))
                      (dropna (drop_duplicates df))))).
  assert (F5 : forall r, In r df5 -> exists r0 x,
            In r0 df /\ is_na (text r0) = false /\ text r = text r0 /\
            others r = others r0 /\ to_numeric_cell pn (rating r0) = CNum x /\
            rating r = CNum (clip05 x)).
  { intros r Hr. unfold df5 in Hr. apply filter_In in Hr as [Hr Hna].
    apply in_map_iff in Hr as (r1 & <- & Hr1).
    apply in_map_iff in Hr1 as (r0 & <- & Hr0).
    unfold dropna in Hr0. apply filter_In in Hr0 as [Hin Hok].
    apply FrameFacts.in_drop_duplicates_from in Hin.
    simpl in *.
    destruct (to_numeric_cell pn (rating r0)) as [x|s|] eqn:Ex.
    - exists r0, x. destruct (is_na (text r0)); simpl in Hok;
        [rewrite orb_true_r in Hok; discriminate|].
      repeat split; auto.
    - exfalso. destruct (rating r0) as [?|s0|]; simpl in Ex; [discriminate| |discriminate].
      destruct (pn s0); discriminate.
    - simpl in Hna. discriminate. }
  destruct (FrameFacts.astype_int_total df5) as [l' Hl'].
  { intros r Hr. destruct (F5 r Hr) as (r0 & x & _ & _ & _ & _ & _ & Hrat).
    destruct (FrameFacts.clip05_range x) as (q & Hq & _).
    exists q. rewrite Hrat, Hq. reflexivity. }
  rewrite Hl'. eexists. split; [reflexivity|].
  intros r' Hr'. apply filter_In in Hr' as [Hr' Hblank].
  destruct (FrameFacts.astype_int_in _ _ Hl' r' Hr') as (r & q & Hr & Hq & ->).
  destruct (F5 r Hr) as (r0 & x & Hin0 & Hna & Ht & Ho & Hx & Hrat).
  destruct (FrameFacts.clip05_range x) as (q' & Hq' & H0 & H5 & Habove & Hbelow).
  rewrite Hrat, Hq' in Hq. injection Hq as <-.
  exists r0, x, (Z.quot (Qnum q') (Zpos (Qden q'))). simpl.
  split; [exact Hin0|]. split; [exact Ht|]. split; [exact Ho|].
  split; [exact Hx|]. split; [reflexivity|].
  split; [apply FrameFacts.quot_range; assumption|].
  split; [intro Ha; rewrite (Habove Ha); reflexivity|].
  split; [intro Hb; rewrite (Hbelow Hb); reflexivity|].
  split.
  - rewrite Ht. destruct (text r0); simpl in Hna; congruence.
  - simpl in Hblank. apply negb_true_iff, String.eqb_neq in Hblank. exact Hblank.
Qed.

(** Claim C5 (code defect): test.py's [process_csv] makes its model calls
    one CSV record at a time (the calls of a run that returns are those of
    its records in order, after the prompts, and each record gives at most
    one call, with its own location and review), and [evaluate] makes one
    call for one review.  But main.py never reaches the model: its
    [chain.invoke] supplies [reference] and [review] while the template
    needs [{location}], so every turn that does not break raises
    [KeyError], and a review typed in individual mode is never sent. *)
Theorem model_calls_per_review :
  (forall model file answers path out,
     r_outcome (process_csv model file answers path) = Return out ->
     exists headers rows loc_col rev_col prompts,
       file = Some (headers :: rows) /\
       r_events (process_csv model file answers path)
         = (prompts ++ flat_map (row_invocations headers loc_col rev_col) rows)%list /\
       Forall is_prompt prompts /\
       Forall (fun raw => row_invocations headers loc_col rev_col raw = [] \/
                 exists l r, get_or_empty (read_row headers raw) rev_col = Some r /\
                   row_invocations headers loc_col rev_col raw
                     = [EInvoke (strip (strip l)) (strip (strip r))]) rows) /\
  (forall model location review,
     fst (evaluate model location review) = EInvoke (strip location) (strip review)) /\
  (forall parse_number num_str load mode_line next_line review,
     main_turn parse_number num_str load mode_line next_line <> TInvoke review) /\
  (forall parse_number num_str load mode_line next_line,
     lower (strip mode_line) = "individual" -> lower (strip next_line) <> "quit" ->
     main_turn parse_number num_str load mode_line next_line = TRaise "KeyError").
Proof.
  split; [|split; [|split]].
  - intros model file answers path out H.
    destruct (CsvFacts.process_csv_return _ _ _ _ _ H)
      as (hs & rows & lc & rc & prompts & evs & lines & Hf & _ & Hw & _ & Hev & Hp & _).
    destruct (CsvFacts.write_rows_ok _ _ _ _ _ _ _ _ Hw) as [He _].
    exists hs, rows, lc, rc, prompts.
    split; [exact Hf|]. split; [rewrite Hev, He; reflexivity|]. split; [exact Hp|].
    apply Forall_forall. intros raw _. unfold row_invocations.
    destruct raw as [|c cs]; [left; reflexivity|].
    destruct (get_or_empty (read_row hs (c :: cs)) lc) as [l|];
      [|left; reflexivity].
    destruct (get_or_empty (read_row hs (c :: cs)) rc) as [r|] eqn:Er;
      [|left; reflexivity].
    destruct (strip r =? EmptyString); [left; reflexivity|].
    right. exists l, r. split; reflexivity.
  - intros model location review. reflexivity.
  - intros pn ns load m l review H.
    destruct (MainFacts.main_turn_cases pn ns load m l) as [E|[e E]]; rewrite E in H;
      discriminate H.
  - intros pn ns load m l Hm Hl. unfold main_turn. rewrite Hm.
    cbn [String.eqb Ascii.eqb Bool.eqb andb].
    destruct (lower (strip l) =? "quit") eqn:E;
      [apply String.eqb_eq in E; contradiction|].
    apply MainFacts.invoke_review_raises.
Qed.

Lemma model_calls_per_review_witness :
  main_turn (fun _ => None) (fun _ => EmptyString) (fun _ _ => None)
    "individual" " The pasta was cold. "
  = TRaise "KeyError".
Proof.
  apply (proj2 (proj2 (proj2 model_calls_per_review))); vm_compute;
    [reflexivity | discriminate].
Defined.

End Claims.

(** ** Further properties of the code *)
Module ExtraLemmas.
Import Py Csv Frame TestMain StrFacts.

(** [drop_duplicates_from] picks rows of its input, in order. *)
Lemma drop_dup_from_mask : forall df seen, exists keep : list bool,
  length keep = length df /\
  drop_duplicates_from seen df = map fst (filter snd (combine df keep)).
Proof.
  induction df as [|r rest IH]; intros seen.
  - exists []. split; reflexivity.
  - simpl. destruct (existsb (row_eqb r) seen).
    + destruct (IH seen) as (keep & Hl & He). exists (false :: keep).
      simpl. split; [rewrite Hl; reflexivity | exact He].
    + destruct (IH (r :: seen)) as (keep & Hl & He). exists (true :: keep).
      simpl. split; [rewrite Hl; reflexivity | rewrite He; reflexivity].
Qed.

Lemma slen_app : forall a b, String.length (a ++ b) = String.length a + String.length b.
Proof. induction a as [|c a IH]; intros b; simpl; [reflexivity | rewrite IH; reflexivity]. Qed.

Lemma string_snoc : forall s, s <> EmptyString -> exists q c, s = q ++ String c EmptyString.
Proof.
  induction s as [|a s IH]; intros H; [contradiction|].
  destruct s as [|b s].
  - exists EmptyString, a. reflexivity.
  - destruct IH as (q & c & Hq); [discriminate|]. exists (String a q), c. rewrite Hq. reflexivity.
Qed.

Lemma app_inj_tail_str : forall a b c d,
  a ++ String c EmptyString = b ++ String d EmptyString -> a = b /\ c = d.
Proof.
  induction a as [|x a IH]; intros [|y b] c d H; simpl in H.
  - injection H as <-. split; reflexivity.
  - injection H as <- H. destruct b; discriminate.
  - injection H as <- H. destruct a; discriminate.
  - injection H as <- H. destruct (IH _ _ _ H) as [-> ->]. split; reflexivity.
Qed.

Lemma lstrip_char_id : forall ch p, (forall c r, p = String c r -> c <> ch) ->
  lstrip_char ch p = p.
Proof.
  intros ch [|c r] H; simpl; [reflexivity|].
  destruct (Ascii.eqb c ch) eqn:E; [|reflexivity].
  apply Ascii.eqb_eq in E. exfalso. exact (H c r eq_refl E).
Qed.

Lemma rstrip_char_id : forall ch p, (forall q c, p = q ++ String c EmptyString -> c <> ch) ->
  rstrip_char ch p = p.
Proof.
  intros ch p H. destruct (string_dec p EmptyString) as [->|Hne]; [reflexivity|].
  destruct (string_snoc p Hne) as (q & c & ->).
  apply rstrip_char_snoc_other. exact (H q c eq_refl).
Qed.

Lemma strip_char_id : forall ch p,
  (forall c r, p = String c r -> c <> ch) -> (forall q c, p = q ++ String c EmptyString -> c <> ch) ->
  strip_char ch p = p.
Proof.
  intros ch p H1 H2. unfold strip_char. rewrite lstrip_char_id by exact H1.
  apply rstrip_char_id. exact H2.
Qed.

Lemma strip_char_wrapped : forall ch p,
  (forall c r, p = String c r -> c <> ch) -> (forall q c, p = q ++ String c EmptyString -> c <> ch) ->
  strip_char ch (String ch (p ++ String ch EmptyString)) = p.
Proof.
  intros ch p H1 H2. unfold strip_char. simpl. rewrite Ascii.eqb_refl.
  destruct p as [|c r].
  - simpl. rewrite Ascii.eqb_refl. reflexivity.
  - simpl. destruct (Ascii.eqb c ch) eqn:E.
    + apply Ascii.eqb_eq in E. exfalso. exact (H1 c r eq_refl E).
    + change (String c (r ++ String ch EmptyString))
        with (String c r ++ String ch EmptyString).
      rewrite rstrip_char_snoc_same. apply rstrip_char_id. exact H2.
Qed.

Lemma strip_wrapped : forall ch p, is_space ch = false ->
  strip (String ch (p ++ String ch EmptyString)) = String ch (p ++ String ch EmptyString).
Proof.
  intros ch p Hc. unfold strip. simpl. rewrite Hc.
  change (String ch (p ++ String ch EmptyString))
    with (String ch p ++ String ch EmptyString).
  apply rstrip_snoc. exact Hc.
Qed.

End ExtraLemmas.

Module Extras.
Import Py Parse Csv Frame Main Trace TestMain Samples StrFacts GuessFacts CsvFacts2
       FrameFacts FrameFacts2 ExtraLemmas.

(** [_normalize] (test.py lines 48-49): the normalized name has no space,
    no underscore and no ASCII capital letter. *)
Theorem normalize_output_chars : forall name c,
  In c (list_ascii_of_string (_normalize name)) ->
  c <> " "%char /\ c <> "_"%char /\ (nat_of_ascii c < 65 \/ 90 < nat_of_ascii c).
Proof.
  intros name c H. unfold _normalize in H.
  apply remove_chars_in in H as [Hb Hin].
  apply orb_false_iff in Hb as [H1 H2].
  apply Ascii.eqb_neq in H1, H2.
  destruct (lower_in _ _ Hin) as [c0 ->].
  split; [exact H1|]. split; [exact H2|]. apply lower_char_upper.
Qed.

Lemma normalize_output_chars_witness :
  In "r"%char (list_ascii_of_string (_normalize " Review_Text ")) /\
  ("r"%char <> " "%char /\ "r"%char <> "_"%char /\
   (nat_of_ascii "r"%char < 65 \/ 90 < nat_of_ascii "r"%char)).
Proof.
  assert (H : In "r"%char (list_ascii_of_string (_normalize " Review_Text ")))
    by (vm_compute; left; reflexivity).
  split; [exact H | exact (normalize_output_chars _ _ H)].
Defined.

(** [_guess_columns] (test.py lines 51-68): the location column found is
    the header, among those whose normalized name is the earliest location
    candidate that any header normalizes to, that comes last in the header
    list; none is found exactly when no header normalizes to a location
    candidate.  The same holds for the review column and its candidates. *)
Theorem guess_columns_choice : forall headers h,
  (fst (_guess_columns headers) = Some h <->
   exists pre c post hpre hpost,
     loc_candidates = (pre ++ c :: post)%list /\
     (forall c', In c' pre -> forall h', In h' headers -> _normalize h' <> c') /\
     headers = (hpre ++ h :: hpost)%list /\ _normalize h = c /\
     (forall h', In h' hpost -> _normalize h' <> c)) /\
  (snd (_guess_columns headers) = Some h <->
   exists pre c post hpre hpost,
     rev_candidates = (pre ++ c :: post)%list /\
     (forall c', In c' pre -> forall h', In h' headers -> _normalize h' <> c') /\
     headers = (hpre ++ h :: hpost)%list /\ _normalize h = c /\
     (forall h', In h' hpost -> _normalize h' <> c)) /\
  (fst (_guess_columns headers) = None <->
   forall h', In h' headers -> ~ In (_normalize h') loc_candidates) /\
  (snd (_guess_columns headers) = None <->
   forall h', In h' headers -> ~ In (_normalize h') rev_candidates).
Proof.
  intros headers h. unfold _guess_columns. cbn [fst snd].
  split; [apply choose_iff|]. split; [apply choose_iff|].
  split; apply choose_none.
Qed.

(** [_parse_model_output] (test.py lines 70-88) raises only on a line
    carrying "primary violation" without a colon: when every such line
    has a colon it returns three strings (the lines taken for Decision and
    Explanation carry a colon in their token).  Output with none of the
    three tokens gives three empty fields. *)
Theorem parse_model_output_returns : forall s,
  ((forall ln, In ln (py_lines s) -> has_tok tok_violation ln = true ->
               contains (String ":" EmptyString) ln = true) ->
   exists d v e, _parse_model_output s = Some (d, v, e)) /\
  ((forall ln, In ln (py_lines s) ->
     has_tok tok_decision ln = false /\ has_tok tok_violation ln = false /\
     has_tok tok_explanation ln = false) ->
   _parse_model_output s = Some (EmptyString, EmptyString, EmptyString)).
Proof.
  intro s. split.
  - intro H. apply scan_total. exact H.
  - intro H. apply scan_no_tokens. exact H.
Qed.

Lemma parse_model_output_returns_witness :
  exists d v e, _parse_model_output ("Decision: Flagged" ++ nl ++ "primary violation: ads")
                = Some (d, v, e).
Proof.
  apply (proj1 (parse_model_output_returns _)).
  intros ln Hln _. vm_compute in Hln.
  destruct Hln as [<-|[<-|[]]]; vm_compute; reflexivity.
Defined.

(** The lines the parser scans (test.py line 76) are non-empty and
    trimmed: [strip] leaves them unchanged. *)
Theorem py_lines_trimmed : forall s ln,
  In ln (py_lines s) -> ln <> EmptyString /\ strip ln = ln.
Proof.
  intros s ln H. unfold py_lines in H.
  destruct (nonblank_stripped_in _ _ H) as (l & _ & -> & Hne).
  split; [exact Hne | apply strip_idem].
Qed.

Lemma py_lines_trimmed_witness :
  In "Decision: Valid" (py_lines ("  Decision: Valid  " ++ nl ++ "   " ++ nl)) /\
  "Decision: Valid" <> EmptyString /\ strip "Decision: Valid" = "Decision: Valid".
Proof.
  assert (H : In "Decision: Valid" (py_lines ("  Decision: Valid  " ++ nl ++ "   " ++ nl)))
    by (vm_compute; left; reflexivity).
  split; [exact H | exact (py_lines_trimmed _ _ H)].
Defined.

(** [process_csv] (test.py lines 106-127): every [sys.exit] it reaches
    has status 1, happens before any model call and before the output
    file is opened. *)
Theorem process_csv_exit_before_model : forall model file answers path code,
  r_outcome (process_csv model file answers path) = Exit code ->
  code = 1 /\ r_file (process_csv model file answers path) = None /\
  Forall is_prompt (r_events (process_csv model file answers path)).
Proof. exact process_csv_exit. Qed.

Lemma process_csv_exit_before_model_witness :
  r_outcome (process_csv sample_model (Some [["name"; "notes"]]) ["city"; "notes"] "x.csv")
    = Exit 1 /\
  (1 = 1 /\ r_file (process_csv sample_model (Some [["name"; "notes"]]) ["city"; "notes"] "x.csv")
             = None /\
   Forall is_prompt
     (r_events (process_csv sample_model (Some [["name"; "notes"]]) ["city"; "notes"] "x.csv"))).
Proof.
  assert (H : r_outcome (process_csv sample_model (Some [["name"; "notes"]]) ["city"; "notes"] "x.csv")
              = Exit 1) by (vm_compute; reflexivity).
  split; [exact H | exact (process_csv_exit_before_model _ _ _ _ _ H)].
Defined.

(** [process_csv] (test.py lines 117-127): when both columns are found
    from the header, the operator is not asked anything: the run does not
    depend on the typed lines, and all its events are model calls. *)
Theorem process_csv_detected_columns : forall model headers rows answers path,
  headers <> [] -> fst (_guess_columns headers) <> None -> snd (_guess_columns headers) <> None ->
  process_csv model (Some (headers :: rows)) answers path
    = process_csv model (Some (headers :: rows)) [] path /\
  Forall (fun e => exists l r, e = EInvoke l r)
    (r_events (process_csv model (Some (headers :: rows)) answers path)).
Proof.
  intros model headers rows answers path Hh Hl Hr.
  destruct headers as [|h t]; [contradiction|].
  assert (Hnl : ~ In EmptyString loc_candidates)
    by (intro H; simpl in H; repeat (destruct H as [H|H]; [discriminate|]); exact H).
  assert (Hnr : ~ In EmptyString rev_candidates)
    by (intro H; simpl in H; repeat (destruct H as [H|H]; [discriminate|]); exact H).
  destruct (fst (_guess_columns (h :: t))) as [l|] eqn:El; [|contradiction].
  destruct (snd (_guess_columns (h :: t))) as [r|] eqn:Er; [|contradiction].
  pose proof (guessed_nonempty _ _ _ Hnl El) as Hl'.
  pose proof (guessed_nonempty _ _ _ Hnr Er) as Hr'.
  unfold process_csv.
  destruct (_guess_columns (h :: t)) as [gl gr]. cbn [fst snd] in El, Er. subst gl gr.
  assert (Hp : (py_not (Some l) || py_not (Some r)) = false).
  { simpl. apply String.eqb_neq in Hl', Hr'. rewrite Hl', Hr'. reflexivity. }
  rewrite Hp. split; [reflexivity|].
  pose proof (write_rows_events model (h :: t) ((h :: t) ++ appended_columns)%list l r rows) as Hw.
  destruct (write_rows model (h :: t) ((h :: t) ++ appended_columns)%list l r rows)
    as [[evs lines] exn]. exact Hw.
Qed.

Lemma process_csv_detected_columns_witness :
  process_csv sample_model (Some sample_file) ["x"; "y"] "in.csv"
    = process_csv sample_model (Some sample_file) [] "in.csv" /\
  Forall (fun e => exists l r, e = EInvoke l r)
    (r_events (process_csv sample_model (Some sample_file) ["x"; "y"] "in.csv")).
Proof.
  apply process_csv_detected_columns; vm_compute; discriminate.
Defined.

(** [process_csv] (test.py lines 139-165): in a run that returns, the
    output has one line per non-empty record, in order.  Each line has one
    value per output column.  Its last three values are empty for a blank
    review, and otherwise the Decision, Primary Violation and Explanation
    the parser read from the model's answer for that record's stripped
    location and review.  When the header names are distinct, none of them
    is a result column and the record has no more fields than the header,
    the record's own values come first, a missing trailing field as the
    empty string. *)
Theorem process_csv_written_rows : forall model headers rows answers path out,
  r_outcome (process_csv model (Some (headers :: rows)) answers path) = Return out ->
  exists loc_col rev_col f,
    r_file (process_csv model (Some (headers :: rows)) answers path) = Some f /\
    Forall2 (fun raw line =>
      exists l r d v e,
        get_or_empty (read_row headers raw) loc_col = Some l /\
        get_or_empty (read_row headers raw) rev_col = Some r /\
        (if strip r =? EmptyString then (d, v, e) = (EmptyString, EmptyString, EmptyString)
         else _parse_model_output (model (strip l) (strip r)) = Some (d, v, e)) /\
        length line = length headers + 3 /\
        skipn (length headers) line = [d; v; e] /\
        (NoDup headers -> (forall h, In h headers -> ~ In h appended_columns) ->
         length raw <= length headers ->
         forall i, i < length headers -> nth i line EmptyString = nth i raw EmptyString))
      (filter nonempty_record rows) (of_rows f).
Proof.
  intros model headers rows answers path out H.
  destruct (CsvFacts.process_csv_return _ _ _ _ _ H)
    as (hs & rows' & lc & rc & prompts & evs & lines & Hf & _ & Hw & _ & _ & _ & Hfile).
  injection Hf as <- <-.
  exists lc, rc. eexists. split; [exact Hfile|]. simpl.
  pose proof (write_rows_lines _ _ _ _ _ _ _ _ Hw) as Hl. clear - Hl.
  induction Hl as [|raw line rs ls Hrl Hrest IH]; constructor; [|exact IH].
  destruct Hrl as (l & r & d & v & e & El & Er & Hp & Hwr).
  exists l, r, d, v, e. rewrite !strip_idem in Hp.
  destruct (row_result_columns _ _ _ _ _ _ Hwr) as [Hlen Hskip].
  repeat split; try assumption.
  intros Hnd Hdis Hlr. exact (row_values_kept _ _ _ _ _ _ Hnd Hdis Hlr Hwr).
Qed.

Lemma process_csv_written_rows_witness :
  r_outcome (process_csv sample_model (Some sample_file) [] "reviews.csv")
    = Return "reviews_evaluated.csv" /\
  exists loc_col rev_col f,
    r_file (process_csv sample_model (Some sample_file) [] "reviews.csv") = Some f /\
    Forall2 (fun raw line =>
      exists l r d v e,
        get_or_empty (read_row ["location"; "review"] raw) loc_col = Some l /\
        get_or_empty (read_row ["location"; "review"] raw) rev_col = Some r /\
        (if strip r =? EmptyString then (d, v, e) = (EmptyString, EmptyString, EmptyString)
         else _parse_model_output (sample_model (strip l) (strip r)) = Some (d, v, e)) /\
        length line = length ["location"; "review"] + 3 /\
        skipn (length ["location"; "review"]) line = [d; v; e] /\
        (NoDup ["location"; "review"] ->
         (forall h, In h ["location"; "review"] -> ~ In h appended_columns) ->
         length raw <= length ["location"; "review"] ->
         forall i, i < length ["location"; "review"] ->
           nth i line EmptyString = nth i raw EmptyString))
      (filter nonempty_record (tl sample_file)) (of_rows f).
Proof.
  assert (H : r_outcome (process_csv sample_model (Some sample_file) [] "reviews.csv")
              = Return "reviews_evaluated.csv") by (vm_compute; reflexivity).
  split; [exact H | exact (process_csv_written_rows _ _ _ _ _ _ H)].
Defined.

(** [process_csv] (test.py lines 129-131): the output path is ten
    characters longer than the input path, so the input file is never
    overwritten. *)
Theorem evaluated_path_longer : forall path,
  String.length (evaluated_path path) = String.length path + 10 /\ evaluated_path path <> path.
Proof.
  intro path. unfold evaluated_path.
  destruct (splitext path) as [base ext] eqn:E.
  destruct (PathFacts.splitext_shape _ _ _ E) as [-> _].
  assert (Hl : String.length (base ++ "_evaluated" ++ ext) = String.length (base ++ ext) + 10)
    by (rewrite !slen_app; simpl; lia).
  split; [exact Hl|]. intro Heq. rewrite Heq in Hl. lia.
Qed.

(** The loop of main.py (lines 87-116): typing quit as the mode does not
    stop the loop cleanly, the turn goes on to [chain.invoke] and raises
    [KeyError]; the loop breaks exactly when the mode is individual or
    file and the next line is quit. *)
Theorem main_turn_quit : forall parse_number num_str load mode_line next_line,
  (lower (strip mode_line) = "quit" ->
   main_turn parse_number num_str load mode_line next_line = TRaise "KeyError") /\
  (main_turn parse_number num_str load mode_line next_line = TBreak <->
   (lower (strip mode_line) = "individual" \/ lower (strip mode_line) = "file") /\
   lower (strip next_line) = "quit").
Proof.
  intros pn ns load m l. unfold main_turn.
  destruct (lower (strip m) =? "quit") eqn:Eq;
    [apply String.eqb_eq in Eq | apply String.eqb_neq in Eq].
  { split; [intros _; apply MainFacts.invoke_review_raises|].
    rewrite MainFacts.invoke_review_raises.
    split; [intro H; discriminate H | intros [[H|H] _]; congruence]. }
  split; [intro H; contradiction|].
  destruct (lower (strip m) =? "individual") eqn:Ei;
    [apply String.eqb_eq in Ei | apply String.eqb_neq in Ei].
  { destruct (lower (strip l) =? "quit") eqn:El;
      [apply String.eqb_eq in El | apply String.eqb_neq in El].
    - split; [intros _; split; [left; exact Ei | exact El] | intros _; reflexivity].
    - rewrite MainFacts.invoke_review_raises.
      split; [intro H; discriminate H | intros [_ H]; contradiction]. }
  destruct (lower (strip m) =? "file") eqn:Ef;
    [apply String.eqb_eq in Ef | apply String.eqb_neq in Ef].
  { destruct (lower (strip l) =? "quit") eqn:El;
      [apply String.eqb_eq in El | apply String.eqb_neq in El].
    - split; [intros _; split; [right; exact Ef | exact El] | intros _; reflexivity].
    - split; [|intros [_ H]; contradiction]. intro H. exfalso. revert H.
      destruct (read_file (strip l)) as [[rd fn]|msg]; [|discriminate].
      destruct (load rd fn) as [df|]; [|discriminate].
      destruct (clean_dataframe pn ns df) as [cdf|]; [|discriminate].
      destruct (Nat.ltb 0 (length cdf)); rewrite MainFacts.invoke_review_raises; discriminate. }
  rewrite MainFacts.invoke_review_raises.
  split; [intro H; discriminate H | intros [[H|H] _]; contradiction].
Qed.

Lemma main_turn_quit_witness :
  main_turn (fun _ => None) (fun _ => EmptyString) (fun _ _ => None) " QUIT " "x"
    = TRaise "KeyError" /\
  main_turn (fun _ => None) (fun _ => EmptyString) (fun _ _ => None) "file" " Quit "
    = TBreak.
Proof.
  split.
  - apply (proj1 (main_turn_quit _ _ _ _ _)). vm_compute. reflexivity.
  - apply (proj2 (proj2 (main_turn_quit _ _ _ _ _))).
    split; [right|]; vm_compute; reflexivity.
Defined.

(** The file mode of main.py (lines 102-116): a file name with an
    unsupported extension raises [read_file]'s [ValueError]; a file that
    is read and cleaned, whether rows are left or not, still ends the turn
    in the [KeyError] of [chain.invoke], so its reviews never reach the
    model. *)
Theorem main_turn_file_edges : forall parse_number num_str load mode_line next_line,
  lower (strip mode_line) = "file" -> lower (strip next_line) <> "quit" ->
  (forall msg, read_file (strip next_line) = inr msg ->
   main_turn parse_number num_str load mode_line next_line = TRaise msg) /\
  (forall rd fn df clean_df, read_file (strip next_line) = inl (rd, fn) -> load rd fn = Some df ->
   clean_dataframe parse_number num_str df = Some clean_df ->
   main_turn parse_number num_str load mode_line next_line = TRaise "KeyError").
Proof.
  intros pn ns load m l Hm Hl. unfold main_turn. rewrite Hm.
  cbn [String.eqb Ascii.eqb Bool.eqb andb].
  destruct (lower (strip l) =? "quit") eqn:E; [apply String.eqb_eq in E; contradiction|].
  split.
  - intros msg Hr. rewrite Hr. reflexivity.
  - intros rd fn df cdf Hr Hload Hc. rewrite Hr, Hload, Hc.
    destruct (Nat.ltb 0 (length cdf)); apply MainFacts.invoke_review_raises.
Qed.

Lemma main_turn_file_edges_witness :
  main_turn (fun _ => None) (fun _ => EmptyString) (fun _ _ => None) "file" "notes.TXT"
    = TRaise "Unsupported file format: txt" /\
  main_turn (fun _ => Some (XFin 4)) (fun _ => EmptyString)
    (fun _ _ => Some file_mode_sample) "file" "reviews.csv" = TRaise "KeyError".
Proof.
  split.
  - apply (proj1 (main_turn_file_edges _ _ _ "file" "notes.TXT" eq_refl
                    ltac:(vm_compute; discriminate))).
    vm_compute. reflexivity.
  - apply (proj2 (main_turn_file_edges _ _ _ "file" "reviews.csv" eq_refl
                    ltac:(vm_compute; discriminate))
             ReadCsv "reviews.csv" file_mode_sample
             [{| rating := CNum (XFin (inject_Z 4)); text := CStr "Great food"; others := [] |}]);
      vm_compute; reflexivity.
Defined.

(** The CSV path typed in test.py (line 194): a path wrapped in double or
    in single quotes is unwrapped, and a trimmed path is kept, as long as
    the path itself does not start or end with a quote. *)
Theorem clean_path_unquotes : forall p,
  (forall c r, p = String c r -> c <> DQ /\ c <> SQ) ->
  (forall q c, p = q ++ String c EmptyString -> c <> DQ /\ c <> SQ) ->
  clean_path (String DQ (p ++ String DQ EmptyString)) = p /\
  clean_path (String SQ (p ++ String SQ EmptyString)) = p /\
  (strip p = p -> clean_path p = p).
Proof.
  intros p H1 H2.
  assert (D1 : forall c r, p = String c r -> c <> DQ) by (intros c r E; apply (H1 c r E)).
  assert (S1 : forall c r, p = String c r -> c <> SQ) by (intros c r E; apply (H1 c r E)).
  assert (D2 : forall q c, p = q ++ String c EmptyString -> c <> DQ) by (intros q c E; apply (H2 q c E)).
  assert (S2 : forall q c, p = q ++ String c EmptyString -> c <> SQ) by (intros q c E; apply (H2 q c E)).
  unfold clean_path. split; [|split].
  - rewrite strip_wrapped by reflexivity. rewrite strip_char_wrapped by assumption.
    apply strip_char_id; assumption.
  - rewrite strip_wrapped by reflexivity.
    rewrite (strip_char_id DQ (String SQ (p ++ String SQ EmptyString))).
    + apply strip_char_wrapped; assumption.
    + intros c r E. injection E as <- _. discriminate.
    + intros q c E. change (String SQ (p ++ String SQ EmptyString))
                      with (String SQ p ++ String SQ EmptyString) in E.
      apply app_inj_tail_str in E as [_ <-]. discriminate.
  - intro Hs. rewrite Hs. rewrite (strip_char_id DQ p) by assumption.
    apply strip_char_id; assumption.
Qed.

Lemma clean_path_unquotes_witness :
  clean_path (String DQ ("data/reviews.csv" ++ String DQ EmptyString)) = "data/reviews.csv" /\
  clean_path (String SQ ("data/reviews.csv" ++ String SQ EmptyString)) = "data/reviews.csv" /\
  (strip "data/reviews.csv" = "data/reviews.csv" -> clean_path "data/reviews.csv" = "data/reviews.csv").
Proof.
  apply clean_path_unquotes.
  - intros c r E. injection E as <- _. split; vm_compute; discriminate.
  - intros q c E. change "data/reviews.csv" with ("data/reviews.cs" ++ String "v"%char EmptyString) in E.
    apply app_inj_tail_str in E as [_ <-]. split; vm_compute; discriminate.
Defined.

(** The loop of test.py (lines 174-199): it stops exactly on mode [q], or
    on mode [i] with [q] as the location (either in any case and with
    surrounding blanks).  Mode [i] otherwise calls the model once, on the
    stripped location and review; mode [f] processes the typed path after
    its quotes are removed; any other mode only prints the usage line. *)
Theorem test_turn_modes : forall model fs answers mode_line line2 line3,
  (test_turn model fs answers mode_line line2 line3 = SBreak <->
   lower (strip mode_line) = "q" \/
   (lower (strip mode_line) = "i" /\ lower (strip line2) = "q")) /\
  (lower (strip mode_line) = "i" -> lower (strip line2) <> "q" ->
   test_turn model fs answers mode_line line2 line3
     = SEvaluate (EInvoke (strip line2) (strip line3))
                 (snd (evaluate model (strip line2) (strip line3)))) /\
  (lower (strip mode_line) = "f" ->
   test_turn model fs answers mode_line line2 line3
     = SProcess (clean_path line2)
         (process_csv model (fs (clean_path line2)) answers (clean_path line2))) /\
  (lower (strip mode_line) <> "q" -> lower (strip mode_line) <> "i" ->
   lower (strip mode_line) <> "f" ->
   test_turn model fs answers mode_line line2 line3 = SUsage).
Proof.
  intros model fs answers m l2 l3. unfold test_turn.
  destruct (lower (strip m) =? "q") eqn:Eq;
    [apply String.eqb_eq in Eq | apply String.eqb_neq in Eq].
  { split; [split; [intros _; left; exact Eq | intros _; reflexivity]|].
    split; [intros H; congruence|]. split; [intros H; congruence|].
    intro H; contradiction. }
  destruct (lower (strip m) =? "i") eqn:Ei;
    [apply String.eqb_eq in Ei | apply String.eqb_neq in Ei].
  { destruct (lower (strip l2) =? "q") eqn:El;
      [apply String.eqb_eq in El | apply String.eqb_neq in El].
    - split; [split; [intros _; right; split; assumption | intros _; reflexivity]|].
      split; [intros _ H; contradiction|]. split; [intro H; congruence|].
      intros _ H; contradiction.
    - split; [split; [intro H; destruct (evaluate model (strip l2) (strip l3)); discriminate H
                     | intros [H|[_ H]]; contradiction]|].
      split.
      + intros _ _. unfold evaluate. rewrite !strip_idem. reflexivity.
      + split; [intro H; congruence|]. intros _ H; contradiction. }
  destruct (lower (strip m) =? "f") eqn:Ef;
    [apply String.eqb_eq in Ef | apply String.eqb_neq in Ef].
  { split; [split; [intro H; discriminate H | intros [H|[H _]]; contradiction]|].
    split; [intro H; contradiction|]. split; [intros _; reflexivity|].
    intros _ _ H; contradiction. }
  split; [split; [intro H; discriminate H | intros [H|[H _]]; contradiction]|].
  split; [intro H; contradiction|]. split; [intro H; contradiction|].
  intros _ _ _; reflexivity.
Qed.

Lemma test_turn_modes_witness :
  test_turn sample_model (fun _ => None) [] " I " " Cafe Luna " "  Great coffee "
    = SEvaluate (EInvoke "Cafe Luna" "Great coffee")
                (snd (evaluate sample_model "Cafe Luna" "Great coffee")) /\
  test_turn sample_model (fun _ => None) [] " i " " Q " "x" = SBreak.
Proof.
  split.
  - exact (proj1 (proj2 (test_turn_modes sample_model (fun _ => None) []
             " I " " Cafe Luna " "  Great coffee "))
             ltac:(vm_compute; reflexivity) ltac:(vm_compute; discriminate)).
  - apply (proj2 (proj1 (test_turn_modes _ _ _ _ _ _))).
    right. split; vm_compute; reflexivity.
Defined.

(** [df.drop_duplicates()] (main.py line 60): the rows kept are input rows
    picked in their input order, no kept row equals an earlier kept row,
    and every input row equals some kept row. *)
Theorem drop_duplicates_spec : forall df,
  (exists keep : list bool, length keep = length df /\
     drop_duplicates df = map fst (filter snd (combine df keep))) /\
  (forall pre r post r', drop_duplicates df = (pre ++ r :: post)%list ->
     In r' pre -> row_eqb r r' = false) /\
  (forall r, In r df -> exists r', In r' (drop_duplicates df) /\ row_eqb r r' = true).
Proof.
  intro df. unfold drop_duplicates. split; [|split].
  - apply drop_dup_from_mask.
  - intros pre r post r' H Hin. apply (drop_dup_from_distinct _ _ _ _ _ H).
    rewrite app_nil_r. exact Hin.
  - intros r H. destruct (drop_dup_from_covers df [] r H) as [(r' & [] & _)|Hk]. exact Hk.
Qed.

Lemma drop_duplicates_spec_witness :
  let a := {| rating := CNum (XFin 4); text := CStr "Great"; others := [] |} in
  let b := {| rating := CNum (XFin 2); text := CStr "Slow"; others := [CNA] |} in
  drop_duplicates [a; b; a] = [a; b] /\
  (forall r', In r' [a] -> row_eqb b r' = false).
Proof.
  intros a b. assert (E : drop_duplicates [a; b; a] = [a; b]) by (vm_compute; reflexivity).
  split; [exact E|].
  intros r' Hr'. apply (proj1 (proj2 (drop_duplicates_spec [a; b; a])) [a] b [] r').
  - exact E.
  - exact Hr'.
Defined.



End Extras.
